(** * entsearch-ai-backend: entity resolution, batched filing retrieval, ranking

    A shallow embedding of the resolution / aggregation / ranking code of
    [src/sec-finance.js] and [src/sharepoint-search.js], followed by the
    properties the specification states about it.

    Conventions of the embedding.
    - JavaScript strings are Rocq [string]s; the case and whitespace
      functions below act on the ASCII range, which is what the SEC tables
      and the queries are made of.
    - [undefined] / [null] are [None]; a value is "truthy" as in JavaScript
      (a non-empty string).
    - A [try { ... } catch] block is a computation in [Completion] whose
      [Throw] case is handled where the source handles it; in the resolver,
      which also counts what it does, the [catch] block is the branch that
      logs an error.
    - Every [axios.get] is an input of the model: [Some response] when the
      request succeeds with the expected shape, [None] when it fails.
    - The process-wide [companyCache] is threaded explicitly ([World]). *)

From Stdlib Require Import ZArith NArith Ascii String DecimalString Lia.
From Stdlib Require DecimalFacts DecimalPos DecimalN.
From stdpp Require Import base option list strings gmap sorting.

Set Warnings "-abstract-large-number".

Open Scope string_scope.
Open Scope list_scope.
Open Scope nat_scope.

(** ** JavaScript built-ins used by the sources *)
Module JS.

(** [if (s)] for an optional string: null, undefined and "" are falsy. *)
Definition truthy (s : option string) : bool :=
  match s with
  | Some (String _ _) => true
  | _ => false
  end.

(** [a || b] on optional strings. *)
Definition or_else (a b : option string) : option string :=
  if truthy a then a else b.

Definition code (a : ascii) : nat := nat_of_ascii a.

Definition isUpper (a : ascii) : bool := (65 <=? code a) && (code a <=? 90).
Definition isLower (a : ascii) : bool := (97 <=? code a) && (code a <=? 122).
Definition isDigit (a : ascii) : bool := (48 <=? code a) && (code a <=? 57).

(** White space removed by [String.prototype.trim] (ASCII range). *)
Definition isSpace (a : ascii) : bool :=
  ((9 <=? code a) && (code a <=? 13)) || (code a =? 32).

(** The regular-expression class [\w]. *)
Definition isWordChar (a : ascii) : bool :=
  isUpper a || isLower a || isDigit a || (code a =? 95).

Definition lowerChar (a : ascii) : ascii :=
  if isUpper a then ascii_of_nat (code a + 32) else a.
Definition upperChar (a : ascii) : ascii :=
  if isLower a then ascii_of_nat (code a - 32) else a.

Fixpoint mapChars (f : ascii -> ascii) (s : string) : string :=
  match s with
  | EmptyString => EmptyString
  | String a s' => String (f a) (mapChars f s')
  end.

Definition toLowerCase : string -> string := mapChars lowerChar.
Definition toUpperCase : string -> string := mapChars upperChar.

Fixpoint trimStart (s : string) : string :=
  match s with
  | EmptyString => EmptyString
  | String a s' => if isSpace a then trimStart s' else s
  end.

Fixpoint trimEnd (s : string) : string :=
  match s with
  | EmptyString => EmptyString
  | String a s' =>
      match trimEnd s' with
      | EmptyString => if isSpace a then EmptyString else String a EmptyString
      | t => String a t
      end
  end.

Definition trim (s : string) : string := trimEnd (trimStart s).

Fixpoint startsWith (s p : string) : bool :=
  match p, s with
  | EmptyString, _ => true
  | String _ _, EmptyString => false
  | String b p', String a s' => Ascii.eqb a b && startsWith s' p'
  end.

(** [s.includes(sub)]: [sub] occurs in [s] as a contiguous substring. *)
Fixpoint includes (s sub : string) : bool :=
  startsWith s sub ||
  match s with
  | EmptyString => false
  | String _ s' => includes s' sub
  end.

Fixpoint repeatChar (n : nat) (a : ascii) : string :=
  match n with
  | O => EmptyString
  | S n' => String a (repeatChar n' a)
  end.

(** [s.padStart(target, fill)] for a one-character [fill]. *)
Definition padStart (target : nat) (fill : ascii) (s : string) : string :=
  repeatChar (target - String.length s) fill +:+ s.

(** [n.toString()] / [String(n)] for a non-negative integer that a double
    holds exactly (below 2^53): such a number is printed in full decimal.
    Larger numbers are rounded by the double and, from 1e21 on, printed in
    exponent form; they are outside this definition. *)
Definition numberToString (n : N) : string :=
  NilEmpty.string_of_uint (N.to_uint n).

(** [text.slice(0, n)]. *)
Fixpoint sliceTo (n : nat) (s : string) : string :=
  match n, s with
  | S n', String a s' => String a (sliceTo n' s')
  | _, _ => EmptyString
  end.

(** The result of a block that may throw. *)
Inductive Completion (A : Type) : Type :=
| Normal (a : A)
| Throw.
Arguments Normal {A} a.
Arguments Throw {A}.

(** [try { body } catch { handler }]. *)
Definition try_catch {A} (body : Completion A) (handler : A) : A :=
  match body with
  | Normal a => a
  | Throw => handler
  end.

(** [Array.prototype.sort(comparefn)].  The comparator's result is a number
    or NaN ([None]); ECMAScript reads NaN as +0.  The sort is stable, so for
    a consistent comparator its result is the one computed here: every
    element is placed in front of the first later element that does not
    have to precede it.  For an inconsistent comparator (NaN for some pairs
    and not for others) ECMAScript leaves the order to the implementation;
    the order computed here is then one of the permitted ones, not
    necessarily the engine's. *)
Section Sort.
Context {A : Type} (comparefn : A -> A -> option Z).

Definition sortCompare (x y : A) : Z := default 0%Z (comparefn x y).

Fixpoint insertSorted (x : A) (l : list A) : list A :=
  match l with
  | [] => [x]
  | y :: l' =>
      if (sortCompare x y <=? 0)%Z then x :: y :: l'
      else y :: insertSorted x l'
  end.

Definition sort (l : list A) : list A := foldr insertSorted [] l.
End Sort.

End JS.

(** ** src/sec-finance.js *)
Module SecFinance.
Import JS.

(** One row of [company_tickers_exchange.json]: the [cik] column is a
    number, [name] and [ticker] may be null (the source reads them with
    [?.]).  Columns are located by name in the source; the record keeps the
    three the code reads. *)
Record ReferenceRow : Type := {
  row_cik : N;
  row_name : option string;
  row_ticker : option string
}.

Definition ReferenceTable : Type := list ReferenceRow.

(** [row[cikIndex].toString().padStart(10, "0")] *)
Definition cikString (row : ReferenceRow) : string :=
  padStart 10 "0"%char (numberToString (row_cik row)).

(** Process state of the resolver: the module-level [companyCache] and
    counters of what a call did (requests for the reference table, scans of
    its rows, messages written by [console.error]). *)
Record World : Type := {
  companyCache : gmap string (option string);
  tableFetches : nat;
  tableScans : nat;
  errorsLogged : nat
}.

Definition initialWorld : World :=
  {| companyCache := ∅; tableFetches := 0; tableScans := 0; errorsLogged := 0 |}.

Definition cacheSet (k : string) (v : option string) (w : World) : World :=
  {| companyCache := <[k := v]> (companyCache w);
     tableFetches := tableFetches w;
     tableScans := tableScans w;
     errorsLogged := errorsLogged w |}.

Definition noteFetch (w : World) : World :=
  {| companyCache := companyCache w;
     tableFetches := S (tableFetches w);
     tableScans := tableScans w;
     errorsLogged := errorsLogged w |}.

Definition noteScan (w : World) : World :=
  {| companyCache := companyCache w;
     tableFetches := tableFetches w;
     tableScans := S (tableScans w);
     errorsLogged := errorsLogged w |}.

Definition noteError (w : World) : World :=
  {| companyCache := companyCache w;
     tableFetches := tableFetches w;
     tableScans := tableScans w;
     errorsLogged := S (errorsLogged w) |}.

(** Line 33: [(name || ticker || "").toLowerCase()]. *)
Definition lookupKey (name ticker : option string) : string :=
  toLowerCase (default "" (or_else (or_else name ticker) (Some ""))).

(** Lines 43-44: [x?.toLowerCase().trim()]. *)
Definition normalize (x : option string) : option string :=
  (fun s => trim (toLowerCase s)) <$> x.

(** How the [for (const row of data)] loop of lines 48-58 ends. *)
Inductive ScanEnd : Type :=
| TickerHit (row : ReferenceRow)            (* the [return] of line 55 *)
| Exhausted (bestMatch : option ReferenceRow)  (* the loop ran to its end *)
| Raised.                                   (* [rowName.includes] on undefined *)

Definition tickerEq (searchTicker : option string) (row : ReferenceRow) : bool :=
  truthy searchTicker &&
  bool_decide (toLowerCase <$> row_ticker row = searchTicker).

Definition nameHit (searchName rowName : string) : bool :=
  String.eqb rowName searchName || includes rowName searchName.

Fixpoint scanRows (searchName searchTicker : option string)
    (data : list ReferenceRow) (bestMatch : option ReferenceRow) : ScanEnd :=
  match data with
  | [] => Exhausted bestMatch
  | row :: rest =>
      if tickerEq searchTicker row then TickerHit row
      else if truthy searchName then
        match toLowerCase <$> row_name row with
        | None => Raised
        | Some rowName =>
            if nameHit (default "" searchName) rowName
            then scanRows searchName searchTicker rest (Some row)
            else scanRows searchName searchTicker rest bestMatch
        end
      else scanRows searchName searchTicker rest bestMatch
  end.

(** [getCIKFromCompanyOrTicker(name, ticker)], lines 30-67.  [resp] is the
    outcome of the request for the reference table, should the call make
    one. *)
Definition getCIKFromCompanyOrTicker (name ticker : option string)
    (resp : option ReferenceTable) (w : World) : option string * World :=
  let key := lookupKey name ticker in
  match companyCache w !! key with
  | Some cached => (cached, w)
  | None =>
      let w := noteFetch w in
      match resp with
      | None => (None, noteError w)
      | Some data =>
          let searchName := normalize name in
          let searchTicker := normalize ticker in
          let w := noteScan w in
          match scanRows searchName searchTicker data None with
          | TickerHit row =>
              let cik := cikString row in
              (Some cik, cacheSet key (Some cik) w)
          | Exhausted bestMatch =>
              let cik := cikString <$> bestMatch in
              (cik, cacheSet key cik w)
          | Raised => (None, noteError w)
          end
      end
  end.

(** *** Filings *)

Record Filing : Type := {
  cik : string;
  companyName : string;
  ticker : option string;
  accessionNumber : string;
  filingDate : string;
  form : string;
  primaryDocument : string
}.

(** One index of the parallel arrays [accessionNumber], [filingDate],
    [form], [primaryDocument] of [filings.recent] (aligned by index). *)
Record RecentSlot : Type := {
  slot_accessionNumber : string;
  slot_filingDate : string;
  slot_form : string;
  slot_primaryDocument : string
}.

(** The body of [submissions/CIK<cik>.json] as far as the code reads it:
    [sub_recent] is [None] when [filings.recent] or its [accessionNumber]
    is absent. *)
Record Submissions : Type := {
  sub_name : option string;
  sub_recent : option (list RecentSlot)
}.

(** What the network answers: the per-entity record for a CIK and the
    reference table. *)
Record Network : Type := {
  getSubmissions : string -> option Submissions;
  getTickers : option ReferenceTable
}.

(** Line 123: the [continue] test of the form filter. *)
Definition formSkipped (formFilter : option string) (form : string) : bool :=
  truthy formFilter &&
  negb (includes (toUpperCase form) (toUpperCase (default "" formFilter))).

Definition mkFiling (cik : string) (res : Submissions) (ticker : option string)
    (s : RecentSlot) : Filing :=
  {| cik := cik;
     companyName := default "" (or_else (sub_name res) (Some ""));
     ticker := ticker;
     accessionNumber := slot_accessionNumber s;
     filingDate := slot_filingDate s;
     form := slot_form s;
     primaryDocument := slot_primaryDocument s |}.

(** Lines 121-133: [for (let i = 0; i < bound; i++)] over the slots, with
    [bound] iterations left. *)
Fixpoint filingsLoop (mk : RecentSlot -> Filing) (formFilter : option string)
    (bound : nat) (recent : list RecentSlot) : list Filing :=
  match bound, recent with
  | S bound', s :: rest =>
      if formSkipped formFilter (slot_form s)
      then filingsLoop mk formFilter bound' rest
      else mk s :: filingsLoop mk formFilter bound' rest
  | _, _ => []
  end.

(** Lines 107-118: the ticker of [cik] in the reference table, [""] when
    the table cannot be fetched or has no such row. *)
Definition tickerOfCIK (tickers : option ReferenceTable) (cik : string)
    : option string :=
  try_catch
    (match tickers with
     | None => Throw
     | Some data =>
         match List.find (fun row => String.eqb (cikString row) cik) data with
         | Some found => Normal (row_ticker found)
         | None => Normal (Some "")
         end
     end)
    (Some "").

(** [fetchFilingsFromSECByCIK(cik, limit, formFilter)], lines 100-139. *)
Definition fetchFilingsFromSECByCIK (net : Network) (cik : string)
    (limit : nat) (formFilter : option string) : list Filing :=
  try_catch
    (match getSubmissions net cik with
     | None => Throw
     | Some res =>
         match sub_recent res with
         | None => Normal []
         | Some recent =>
             let ticker := tickerOfCIK (getTickers net) cik in
             Normal (filingsLoop (mkFiling cik res ticker) formFilter
                       (Nat.min (length recent) limit) recent)
         end
     end)
    [].

(** Line 159: the dedup key of a filing. *)
Definition filingKey (f : Filing) : string :=
  cik f +:+ "-" +:+ accessionNumber f.

(** What the aggregation loop does, in the order it does it. *)
Inductive Event : Type :=
| IssueWindow (size : nat)     (* [Promise.all] over one batch *)
| ConsumeResult (size : nat)   (* one [arr] of [results] is reached *)
| Push (key : string)          (* [collected.push(f)] *)
| Delay.                       (* the inter-batch [setTimeout] *)

Record Collector : Type := {
  collected : list Filing;
  trace : list Event           (* most recent event first *)
}.

Definition note (e : Event) (st : Collector) : Collector :=
  {| collected := collected st; trace := e :: trace st |}.

Definition push (f : Filing) (st : Collector) : Collector :=
  {| collected := collected st ++ [f]; trace := Push (filingKey f) :: trace st |}.

(** Line 160: [collected.find(x => key(x) === key)]. *)
Definition alreadyCollected (f : Filing) (l : list Filing) : bool :=
  existsb (fun x => String.eqb (filingKey x) (filingKey f)) l.

Definition BATCH_SIZE : nat := 5.

Section Aggregation.
Context {Entity : Type} (perEntityFetch : Entity -> list Filing).
Variable limit : nat.

(** Lines 158-164: [for (const f of arr)]. *)
Fixpoint consumeFilings (arr : list Filing) (st : Collector) : Collector :=
  match arr with
  | [] => st
  | f :: rest =>
      if alreadyCollected f (collected st) then consumeFilings rest st
      else
        let st := push f st in
        if limit <=? length (collected st) then st   (* break *)
        else consumeFilings rest st
  end.

(** Lines 156-166: [for (const arr of results)]. *)
Fixpoint consumeResults (results : list (list Filing)) (st : Collector)
    : Collector :=
  match results with
  | [] => st
  | arr :: rest =>
      let st := note (ConsumeResult (length arr)) st in
      match arr with
      | [] => consumeResults rest st             (* continue *)
      | _ =>
          let st := consumeFilings arr st in
          if limit <=? length (collected st) then st   (* break *)
          else consumeResults rest st
      end
  end.

(** Lines 153-168: the window loop, [i] being its index variable.  Each
    iteration advances [i] by [BATCH_SIZE], so [length ciks] iterations
    always suffice; [fuel] bounds them. *)
Fixpoint batchLoop (fuel : nat) (ciks : list Entity) (i : nat)
    (st : Collector) : Collector :=
  match fuel with
  | O => st
  | S fuel' =>
      if (i <? length ciks) && (length (collected st) <? limit) then
        let batch := take BATCH_SIZE (drop i ciks) in
        let st := note (IssueWindow (length batch)) st in
        let results := perEntityFetch <$> batch in
        let st := consumeResults results st in
        let st := note Delay st in
        batchLoop fuel' ciks (i + BATCH_SIZE) st
      else st
  end.

Definition collect (ciks : list Entity) : Collector :=
  batchLoop (length ciks) ciks 0 {| collected := []; trace := [] |}.
End Aggregation.

Section Latest.
(** [new Date(s).getTime()]: [None] is the NaN of an invalid date. *)
Variable dateValue : string -> option Z.

(** Line 170: [(a, b) => new Date(b.filingDate) - new Date(a.filingDate)]. *)
Definition byDateDesc (a b : Filing) : option Z :=
  match dateValue (filingDate b), dateValue (filingDate a) with
  | Some tb, Some ta => Some (tb - ta)%Z
  | _, _ => None
  end.

(** Lines 153-171 for given per-entity results: collect, sort, slice. *)
Definition aggregate {Entity : Type} (perEntityFetch : Entity -> list Filing)
    (ciks : list Entity) (limit : nat) : list Filing :=
  take limit (sort byDateDesc (collected (collect perEntityFetch limit ciks))).

(** [fetchLatestFilingsByForm(formFilter, limit)], lines 141-176. *)
Definition fetchLatestFilingsByForm (net : Network)
    (formFilter : option string) (limit : nat) : list Filing :=
  try_catch
    (match getTickers net with
     | None => Throw
     | Some data =>
         let ciks := cikString <$> data in
         Normal (aggregate
                   (fun cik => fetchFilingsFromSECByCIK net cik 10 formFilter)
                   ciks limit)
     end)
    [].
End Latest.

End SecFinance.

(** ** src/sharepoint-search.js

  The file holds the document-ranking service and an earlier copy of the
  SEC service.  Of that copy, [fetchFilingsFromSECByCIK] and
  [fetchLatestFilingsByForm] (lines 307-382) are the same text as in
  [sec-finance.js] and are not embedded twice; its
  [getCIKFromCompanyOrTicker] differs and is embedded here. *)
Module SharepointSearch.
Import JS.
Import SecFinance.

(** Lines 27-30. *)
Definition stopWords : list string :=
  [ "the"; "is"; "are"; "am"; "was"; "were"; "a"; "an"; "and"; "or"; "for";
    "to"; "of"; "in"; "on"; "at"; "by"; "with"; "from"; "that"; "this"; "it";
    "as"; "be"; "been"; "being"; "if"; "then"; "else"; "what"; "which"; "who";
    "when"; "where"; "how"; "why"; "please"; "give"; "some"; "details"; "here" ].

Definition isStopWord (w : string) : bool := existsb (String.eqb w) stopWords.

Definition emitRun (run : string) : list string :=
  if 3 <=? String.length run then [run] else [].

(** [s.match(/\w{3,}/g)]: the maximal runs of word characters that are at
    least three long, left to right ([run] is the run being read). *)
Fixpoint matchWords (s : string) (run : string) : list string :=
  match s with
  | EmptyString => emitRun run
  | String a s' =>
      if isWordChar a then matchWords s' (run +:+ String a EmptyString)
      else emitRun run ++ matchWords s' EmptyString
  end.

(** [extractKeywordsArray(query)], lines 26-37. *)
Definition extractKeywordsArray (query : string) : list string :=
  if truthy (Some query)
  then List.filter (fun w => negb (isStopWord w)) (matchWords (toLowerCase query) "")
  else [].

Fixpoint join (sep : string) (l : list string) : string :=
  match l with
  | [] => ""
  | [x] => x
  | x :: rest => x +:+ sep +:+ join sep rest
  end.

(** [keywordsToSearchString(keywords, fallback)], lines 40-43. *)
Definition keywordsToSearchString (keywords : list string) (fallback : string)
    : string :=
  match keywords with
  | [] => fallback
  | _ => join " OR " keywords
  end.

(** Lines 50-52: [for (const kw of keywords) if (lower.includes(kw)) count++]. *)
Fixpoint countLoop (lower : string) (keywords : list string) (count : nat) : nat :=
  match keywords with
  | [] => count
  | kw :: rest =>
      countLoop lower rest (if includes lower kw then S count else count)
  end.

(** [countKeywordPresence(text, keywords)], lines 46-54. *)
Definition countKeywordPresence (text : string) (keywords : list string) : nat :=
  if negb (truthy (Some text)) || (length keywords =? 0) then 0
  else countLoop (toLowerCase text) keywords 0.

(** A search hit (lines 75-80) and a scored candidate (lines 155-159). *)
Record File : Type := {
  id : string;
  name : option string;
  driveId : option string;
  webUrl : option string
}.

Record Candidate : Type := {
  file : File;
  nameMatches : nat;
  contentMatches : nat;
  score : nat
}.

(** The text extracted from the content of an item, [None] when the
    request or the extraction throws. *)
Definition ContentSource : Type := option string -> string -> option string.

(** [getFileTextContent(driveId, itemId, token, maxChars)], lines 84-131:
    the extracted text, cut to [maxChars] when a non-zero budget is given,
    [""] on any failure. *)
Definition getFileTextContent (content : ContentSource)
    (driveId : option string) (itemId : string) (maxChars : option nat) : string :=
  try_catch
    (match content driveId itemId with
     | None => Throw
     | Some text =>
         match maxChars with
         | Some (S _ as m) =>
             if m <? String.length text then Normal (sliceTo m text) else Normal text
         | _ => Normal text
         end
     end)
    "".

(** Lines 155-159. *)
Definition scoreName (keywords : list string) (f : File) : Candidate :=
  let nameLower := toLowerCase (default "" (or_else (name f) (Some ""))) in
  let nameMatches := countKeywordPresence nameLower keywords in
  {| file := f; nameMatches := nameMatches; contentMatches := 0;
     score := nameMatches * 3 |}.

(** Line 161. *)
Definition anyNameMatch (candidates : list Candidate) : bool :=
  existsb (fun c => 0 <? nameMatches c) candidates.

(** Lines 167-177 and 183-192: both branches run this with their own
    [previewMaxChars]. *)
Definition scoreContent (content : ContentSource) (keywords : list string)
    (previewMaxChars : nat) (c : Candidate) : Candidate :=
  let previewText :=
    getFileTextContent content (driveId (file c)) (id (file c)) (Some previewMaxChars) in
  let contentMatches := countKeywordPresence previewText keywords in
  {| file := file c; nameMatches := nameMatches c;
     contentMatches := contentMatches;
     score := nameMatches c * 3 + contentMatches * 1 |}.

(** Line 164 / 182: the preview budget of the branch taken. *)
Definition previewBudget (candidates : list Candidate) : nat :=
  if negb (anyNameMatch candidates) then 20000 else 8000.

(** Lines 196-199. *)
Definition byScoreDesc (a b : Candidate) : option Z :=
  if negb (score b =? score a) then Some (Z.of_nat (score b) - Z.of_nat (score a))%Z
  else Some 0%Z.

(** Steps 3-5 of the [/sharepoint-query] handler, lines 155-199. *)
Definition rankCandidates (content : ContentSource) (keywords : list string)
    (files : list File) : list Candidate :=
  let candidates := scoreName keywords <$> files in
  let candidates :=
    scoreContent content keywords (previewBudget candidates) <$> candidates in
  sort byScoreDesc candidates.

(** The row loop of lines 293-299. *)
Fixpoint scanRows (searchName searchTicker : option string)
    (data : list ReferenceRow) : Completion (option ReferenceRow) :=
  match data with
  | [] => Normal None
  | row :: rest =>
      if truthy searchName then
        match toLowerCase <$> row_name row with
        | None => Throw
        | Some rowName =>
            if includes rowName (default "" searchName) || tickerEq searchTicker row
            then Normal (Some row)
            else scanRows searchName searchTicker rest
        end
      else if tickerEq searchTicker row then Normal (Some row)
      else scanRows searchName searchTicker rest
  end.

(** [getCIKFromCompanyOrTicker(name, ticker)] of this file, lines 281-305:
    no cache, and the first row matching by name or by ticker is returned. *)
Definition getCIKFromCompanyOrTicker (name ticker : option string)
    (resp : option ReferenceTable) : option string :=
  try_catch
    (match resp with
     | None => Throw
     | Some data =>
         match scanRows (normalize name) (normalize ticker) data with
         | Normal found => Normal (cikString <$> found)
         | Throw => Throw
         end
     end)
    None.

End SharepointSearch.

(** ** The specification's reading of the lookup key *)
Module Spec.
Import JS SecFinance.

(** Section 4.2, step 1 of the specification: "lower-cased, trimmed ticker
    if present, else name". *)
Definition lookupKey (name ticker : option string) : string :=
  if truthy ticker then trim (toLowerCase (default "" ticker))
  else trim (toLowerCase (default "" name)).

(** The identity of a filing for deduplication, section 3. *)
Definition filingId (f : Filing) : string * string :=
  (cik f, accessionNumber f).

(** "First-seen wins": the filings of [fs] added to [acc] in order, each
    one unless a filing with its key is already there. *)
Definition firstSeen (acc fs : list Filing) : list Filing :=
  foldl (fun acc f => if alreadyCollected f acc then acc else acc ++ [f]) acc fs.

(** [a] is not older than [b]; both dates are valid. *)
Definition NewerOrSame (dateValue : string -> option Z) (a b : Filing) : Prop :=
  exists ta tb : Z,
    dateValue (filingDate a) = Some ta /\ dateValue (filingDate b) = Some tb /\
    (tb <= ta)%Z.

(** The number of filings pushed in a trace. *)
Fixpoint pushes (tr : list Event) : nat :=
  match tr with
  | [] => 0
  | Push _ :: tr' => S (pushes tr')
  | _ :: tr' => pushes tr'
  end.

(** The number of windows issued in a trace. *)
Fixpoint windows (tr : list Event) : nat :=
  match tr with
  | [] => 0
  | IssueWindow _ :: tr' => S (windows tr')
  | _ :: tr' => windows tr'
  end.

(** The events that start new work: a window, or the next per-entity
    result. *)
Definition startsWork (e : Event) : bool :=
  match e with
  | IssueWindow _ | ConsumeResult _ => true
  | _ => false
  end.

(** Every event that starts new work happened while fewer than [limit]
    filings had been pushed. *)
Fixpoint withinBudget (limit : nat) (tr : list Event) : Prop :=
  match tr with
  | [] => True
  | e :: earlier =>
      (startsWork e = true -> pushes earlier < limit) /\
      withinBudget limit earlier
  end.

(** The trace respects the budget and counts the collected filings. *)
Definition Accounted (limit : nat) (st : Collector) : Prop :=
  withinBudget limit (trace st) /\ pushes (trace st) = length (collected st).

(** The count the specification describes in section 3: the distinct
    keywords that occur in the lower-cased text. *)
Definition distinctMatches (text : string) (keywords : list string) : nat :=
  length (remove_dups (List.filter (includes (toLowerCase text)) keywords)).

End Spec.

(** ** What the ranking pass leaves in a candidate *)
Module RankSpec.
Import JS SharepointSearch.

(** The (lower-cased) name and the content preview a candidate is scored
    on. *)
Definition nameOf (c : Candidate) : string :=
  toLowerCase (default "" (or_else (name (file c)) (Some ""))).

Definition previewOf (content : ContentSource) (budget : nat) (c : Candidate)
    : string :=
  getFileTextContent content (driveId (file c)) (id (file c)) (Some budget).

Definition Scored (content : ContentSource) (keywords : list string)
    (budget : nat) (c : Candidate) : Prop :=
  nameMatches c = countKeywordPresence (nameOf c) keywords /\
  contentMatches c = countKeywordPresence (previewOf content budget c) keywords /\
  score c = nameMatches c * 3 + contentMatches c * 1.

End RankSpec.

(** ** Concrete inputs used by the examples *)
Module Fixtures.
Import JS SecFinance.

Definition apple : ReferenceRow :=
  {| row_cik := 320193; row_name := Some "Apple Inc."; row_ticker := Some "AAPL" |}.
Definition microsoft : ReferenceRow :=
  {| row_cik := 789019; row_name := Some "Microsoft Corp"; row_ticker := Some "MSFT" |}.
Definition unnamed : ReferenceRow :=
  {| row_cik := 1; row_name := None; row_ticker := Some "ZZZ" |}.

Definition table : ReferenceTable := [apple; microsoft].

(** The world after [getCIKFromCompanyOrTicker("Apple", null)] ran once. *)
Definition afterApple : World :=
  (getCIKFromCompanyOrTicker (Some "Apple") None (Some table) initialWorld).2.

(** The world after [getCIKFromCompanyOrTicker("MSFT", null)] ran once:
    no name contains "msft", so null is stored under "msft". *)
Definition afterMsftAsName : World :=
  (getCIKFromCompanyOrTicker (Some "MSFT") None (Some table) initialWorld).2.

(** A stand-in for [Date] on ISO dates: "2024-03-15" is read as 20240315,
    anything that is not digits and dashes is invalid. *)
Fixpoint isoDateFrom (s : string) (acc : Z) : option Z :=
  match s with
  | EmptyString => Some acc
  | String a s' =>
      if isDigit a then isoDateFrom s' (10 * acc + Z.of_nat (code a - 48))%Z
      else if code a =? 45 then isoDateFrom s' acc
      else None
  end.

Definition isoDate (s : string) : option Z :=
  match s with
  | EmptyString => None
  | _ => isoDateFrom s 0%Z
  end.

Definition filingOf (cik accession date : string) : Filing :=
  {| cik := cik; companyName := "Co " +:+ cik; ticker := Some "";
     accessionNumber := accession; filingDate := date;
     form := "10-K"; primaryDocument := "doc.htm" |}.

(** Twelve entities, each with one 10-K of its own. *)
Definition twelve : list string :=
  [ "01"; "02"; "03"; "04"; "05"; "06"; "07"; "08"; "09"; "10"; "11"; "12" ].

Definition oneEach (cik : string) : list Filing :=
  [ filingOf cik ("0000000000-24-0000" +:+ cik) ("2024-01-" +:+ cik) ].

(** The same filing reported by two entities in different windows, among
    filings out of date order. *)
Definition feeds : list (list Filing) :=
  [ [ filingOf "A" "0001" "2023-05-01"; filingOf "A" "0002" "2024-02-01" ];
    []; []; []; [];
    [ filingOf "A" "0001" "2023-05-01"; filingOf "B" "0001" "2023-11-30" ] ].

(** An entity whose two most recent filings are an 8-K, then a 10-K. *)
Definition recentTwo : list RecentSlot :=
  [ {| slot_accessionNumber := "0000320193-24-000002"; slot_filingDate := "2024-05-02";
       slot_form := "8-K"; slot_primaryDocument := "a.htm" |};
    {| slot_accessionNumber := "0000320193-24-000001"; slot_filingDate := "2024-02-01";
       slot_form := "10-K"; slot_primaryDocument := "b.htm" |} ].

Definition twoForms : Submissions :=
  {| sub_name := Some "Apple Inc."; sub_recent := Some recentTwo |}.

(** A network that knows Apple's filings only; Microsoft's request fails. *)
Definition appleOnly : Network :=
  {| getSubmissions := fun cik =>
       if String.eqb cik "0000320193" then Some twoForms else None;
     getTickers := Some table |}.

(** Two search hits and a content source with nothing in it. *)
Definition budgetReport : SharepointSearch.File :=
  {| SharepointSearch.id := "01A"; SharepointSearch.name := Some "Budget Report.docx";
     SharepointSearch.driveId := Some "b!x"; SharepointSearch.webUrl := None |}.
Definition misc : SharepointSearch.File :=
  {| SharepointSearch.id := "01B"; SharepointSearch.name := Some "misc.txt";
     SharepointSearch.driveId := Some "b!x"; SharepointSearch.webUrl := None |}.

Definition noContent : SharepointSearch.ContentSource := fun _ _ => Some "".

End Fixtures.

(** ** More JavaScript built-ins *)
Module JSMore.
Import JS.

(** The line feed, written [\n] in the sources. *)
Definition newline : string := String (ascii_of_nat 10) EmptyString.

(** [s.endsWith(suffix)]. *)
Fixpoint endsWith (s suffix : string) : bool :=
  String.eqb s suffix ||
  match s with
  | EmptyString => false
  | String _ s' => endsWith s' suffix
  end.

(** [x || null] for an optional string. *)
Definition orNull (x : option string) : option string :=
  if truthy x then x else None.

(** A template literal interpolates null as the text "null". *)
Definition interpolate (x : option string) : string := default "null" x.

(** [s.replace(/^<prefix>\s*/, "")]: a leading [prefix] and the white space
    after it are removed; without the prefix the string is unchanged. *)
Fixpoint dropPrefix (prefix s : string) : option string :=
  match prefix, s with
  | EmptyString, _ => Some s
  | String _ _, EmptyString => None
  | String b prefix', String a s' =>
      if Ascii.eqb a b then dropPrefix prefix' s' else None
  end.

Definition replaceLeading (prefix s : string) : string :=
  match dropPrefix prefix s with
  | Some rest => trimStart rest
  | None => s
  end.

(** [s.replace(/<suffix>$/, "")]. *)
Definition replaceTrailing (suffix s : string) : string :=
  if endsWith s suffix
  then sliceTo (String.length s - String.length suffix) s
  else s.

End JSMore.

(** ** src/sec-finance.js: the insight batches and the endpoint *)
Module SecFinanceEndpoint.
Import JS JSMore SecFinance.

(** Lines 276-277: the line of the prompt that describes one filing. *)
Definition filingLine (f : Filing) : string :=
  "Company: " +:+ companyName f +:+ ", Ticker: " +:+ interpolate (ticker f) +:+
  ", Form: " +:+ form f +:+ ", Date: " +:+ filingDate f +:+
  ", Accession: " +:+ accessionNumber f.

(** Lines 274-279. *)
Definition filingsText (batch : list Filing) : string :=
  SharepointSearch.join newline (filingLine <$> batch).

(** Line 312: the three [replace] calls that take the code fences off. *)
Definition stripFences (text : string) : string :=
  replaceLeading "```"
    (replaceTrailing "```" (replaceLeading "```json" text)).

Definition INSIGHT_BATCH_SIZE : nat := 2.

Section Insights.
(** The elements of the arrays the model is asked for. *)
Context {Insight : Type}.
(** The content of the model's reply to the prompt built from a filings text
    and the query; [None] when the request throws. *)
Variable ai : string -> string -> option string.
(** [JSON.parse] followed by the spread into [push]: [None] when either
    throws (no JSON, or not an array). *)
Variable parse : string -> option (list Insight).

Record Asked : Type := {
  insights : list Insight;
  asked : list (list Filing)     (* the batches sent, most recent first *)
}.

(** Lines 311-318: what one reply adds to [insights]. *)
Definition insightsOfReply (content : string) : list Insight :=
  try_catch
    (match parse (stripFences (trim content)) with
     | Some parsed => Normal parsed
     | None => Throw
     end)
    [].

(** Lines 272-319: the batch loop, [i] being its index variable; it advances
    by two, so [length filings] iterations suffice.  A request that throws
    is not caught here. *)
Fixpoint askLoop (fuel : nat) (filings : list Filing) (query : string)
    (i : nat) (st : Asked) : Completion Asked :=
  match fuel with
  | O => Normal st
  | S fuel' =>
      if i <? length filings then
        let batch := take INSIGHT_BATCH_SIZE (drop i filings) in
        match ai (filingsText batch) query with
        | None => Throw
        | Some content =>
            askLoop fuel' filings query (i + INSIGHT_BATCH_SIZE)
              {| insights := insights st ++ insightsOfReply content;
                 asked := batch :: asked st |}
        end
      else Normal st
  end.

Definition askAll (filings : list Filing) (query : string) : Completion Asked :=
  askLoop (length filings) filings query 0 {| insights := []; asked := [] |}.

(** [askAIAboutFilings(filings, query)], lines 267-322. *)
Definition askAIAboutFilings (filings : list Filing) (query : string)
    : Completion (list Insight) :=
  if length filings =? 0 then Normal []
  else
    match askAll filings query with
    | Normal st => Normal (insights st)
    | Throw => Throw
    end.
End Insights.

(** Lines 114 and 351: [data.find(row => String(row[cikIndex]).padStart(10, "0") === cik)]. *)
Definition findByCIK (data : ReferenceTable) (cik : string) : option ReferenceRow :=
  List.find (fun row => String.eqb (cikString row) cik) data.

(** What the endpoint's requests are answered with, in the order of the
    source: the reference table inside the lookup of line 340, the table of
    line 345, Yahoo's first symbol of line 362 ([None] when the request
    fails), the table inside the lookup of line 372. *)
Record Upstream : Type := {
  nameLookupTable : option ReferenceTable;
  mappingTable : option ReferenceTable;
  yahooSymbol : option (option string);
  tickerLookupTable : option ReferenceTable
}.

Record Resolved : Type := {
  resolvedTicker : option string;
  resolvedCik : option string;
  worldAfter : World
}.

(** Lines 343-356: the ticker of the row with this CIK, if the table can be
    had and has one. *)
Definition tickerFromMapping (up : Upstream) (cik current : option string)
    : option string :=
  if truthy cik then
    try_catch
      (match mappingTable up with
       | None => Throw
       | Some data =>
           match findByCIK data (default "" cik) with
           | Some found => Normal (row_ticker found)
           | None => Normal current
           end
       end)
      current
  else current.

(** Lines 359-367: the Yahoo fallback. *)
Definition tickerFromYahoo (up : Upstream) (current : option string)
    : option string :=
  if negb (truthy current) then
    try_catch
      (match yahooSymbol up with
       | None => Throw
       | Some symbol => Normal (orNull symbol)
       end)
      current
  else current.

(** Lines 334-373 of the [/api/ai-finance-sec] handler. *)
Definition resolveIdentifiers (companyName ticker : option string)
    (up : Upstream) (w : World) : Resolved :=
  let fromIntent := orNull ticker in
  let afterName :=
    if truthy companyName && negb (truthy fromIntent) then
      let out := getCIKFromCompanyOrTicker companyName None (nameLookupTable up) w in
      let fromMapping := tickerFromMapping up out.1 fromIntent in
      let fromYahoo := tickerFromYahoo up fromMapping in
      {| resolvedTicker := fromYahoo; resolvedCik := out.1; worldAfter := out.2 |}
    else {| resolvedTicker := fromIntent; resolvedCik := None; worldAfter := w |} in
  if negb (truthy (resolvedCik afterName)) &&
     (truthy (resolvedTicker afterName) || truthy companyName) then
    let out :=
      getCIKFromCompanyOrTicker companyName (resolvedTicker afterName)
        (tickerLookupTable up) (worldAfter afterName) in
    {| resolvedTicker := resolvedTicker afterName;
       resolvedCik := out.1; worldAfter := out.2 |}
  else afterName.

(** Lines 385 and 401: [source === "sec" || source === "both"]. *)
Definition wantsSec (source : string) : bool :=
  String.eqb source "sec" || String.eqb source "both".

(** Lines 376-396: which filings the endpoint fetches. *)
Definition selectFilings (dateValue : string -> option Z) (net : Network)
    (source : string) (cik form : option string) : list Filing :=
  if wantsSec source then
    if truthy cik then
      if truthy form then
        let filings := fetchFilingsFromSECByCIK net (default "" cik) 50 form in
        if length filings =? 0
        then fetchLatestFilingsByForm dateValue net form 10
        else filings
      else fetchFilingsFromSECByCIK net (default "" cik) 10 None
    else if truthy form then fetchLatestFilingsByForm dateValue net form 10
    else []
  else [].

End SecFinanceEndpoint.

(** ** src/sharepoint-search.js: the content of a file and the top files *)
Module SharepointQuery.
Import JS JSMore SharepointSearch.

(** The answer to the content request of lines 86-89, as far as the code
    reads it: the content-type header and the body. *)
Record Download : Type := {
  contentTypeHeader : option string;
  body : string
}.

(** The extraction libraries.  Each may throw ([None]); mammoth and
    pdf-parse return an object whose text may be missing. *)
Record Extractors : Type := {
  mammothRawText : string -> option (option string);
  pdfText : string -> option (option string);
  sheetsCsv : string -> option string
}.

(** Lines 91-123: the text of a download, by content type or by the ending
    of the item name.  The last test of line 107 calls [itemId.endswith],
    which is not a function of a string: it throws when it is reached. *)
Definition extractText (lib : Extractors) (d : Download) (itemId : string)
    : Completion string :=
  let contentType :=
    toLowerCase (default "" (or_else (contentTypeHeader d) (Some ""))) in
  if includes contentType "wordprocessingml.document" || endsWith itemId ".docx" then
    match mammothRawText lib (body d) with
    | Some value => Normal (default "" (or_else value (Some "")))
    | None => Throw
    end
  else if includes contentType "pdf" || endsWith itemId ".pdf" then
    match pdfText lib (body d) with
    | Some text => Normal (default "" (or_else text (Some "")))
    | None => Throw
    end
  else if includes contentType "text" || endsWith itemId ".txt" then
    Normal (body d)
  else if includes contentType "spreadsheetml.sheet" then
    Normal (try_catch
              (match sheetsCsv lib (body d) with
               | Some csv => Normal csv
               | None => Throw
               end)
              "")
  else Throw.

(** The content source that lines 86-123 make of the content requests
    ([None] when a request fails) and the libraries. *)
Definition contentVia (download : option string -> string -> option Download)
    (lib : Extractors) : ContentSource :=
  fun driveId itemId =>
    match download driveId itemId with
    | None => None
    | Some d =>
        match extractText lib d itemId with
        | Normal text => Some text
        | Throw => None
        end
    end.

(** Lines 208-209. *)
Definition TOP_N (candidates : list Candidate) : nat :=
  Nat.min 3 (length candidates).

Definition topFiles (candidates : list Candidate) : list Candidate :=
  take (TOP_N candidates) candidates.

(** Line 217: the section of the prompt for one file.  A [name] that the
    search hit does not have is written "undefined"; a hit whose [name] is a
    JSON null would be written "null", a case the [option] of [File] does
    not tell apart. *)
Definition fileSection (content : ContentSource) (f : Candidate) : string :=
  newline +:+ "---" +:+ newline +:+ "File: " +:+
  default "undefined" (name (file f)) +:+ newline +:+
  default "" (or_else
    (Some (getFileTextContent content (driveId (file f)) (id (file f)) None))
    (Some "")).

(** Lines 212-217. *)
Definition combinedText (content : ContentSource) (candidates : list Candidate)
    : string :=
  join newline (fileSection content <$> topFiles candidates).

End SharepointQuery.

(** ** Notions used to state further properties *)
Module ExtraSpec.
Import JS JSMore SecFinance.

(** The row matches the search name: line 57 of sec-finance.js. *)
Definition nameMatch (searchName : option string) (row : ReferenceRow) : bool :=
  truthy searchName &&
  match toLowerCase <$> row_name row with
  | Some rowName => nameHit (default "" searchName) rowName
  | None => false
  end.

(** The row matches as lines 296 of sharepoint-search.js has it: the name
    contains the search name, or the ticker is the search ticker. *)
Definition eitherMatch (searchName searchTicker : option string)
    (row : ReferenceRow) : bool :=
  (truthy searchName &&
   match toLowerCase <$> row_name row with
   | Some rowName => includes rowName (default "" searchName)
   | None => false
   end)
  || tickerEq searchTicker row.

(** The number a CIK string stands for. *)
Definition cikNumber (s : string) : option N :=
  N.of_uint <$> NilEmpty.uint_of_string s.

(** A list cut into consecutive pairs, the last one single when the length
    is odd. *)
Fixpoint pairs {A : Type} (l : list A) : list (list A) :=
  match l with
  | [] => []
  | [a] => [[a]]
  | a :: b :: rest => [a; b] :: pairs rest
  end.

(** The entities requested in a trace. *)
Fixpoint requested (tr : list Event) : nat :=
  match tr with
  | [] => 0
  | IssueWindow size :: tr' => size + requested tr'
  | _ :: tr' => requested tr'
  end.

(** The inter-batch delays of a trace. *)
Fixpoint delays (tr : list Event) : nat :=
  match tr with
  | [] => 0
  | Delay :: tr' => S (delays tr')
  | _ :: tr' => delays tr'
  end.

(** Every window of the trace (most recent event first) holds between one
    and [BATCH_SIZE] entities and is either the first event or comes right
    after a delay. *)
Fixpoint Throttled (tr : list Event) : Prop :=
  match tr with
  | [] => True
  | IssueWindow size :: earlier =>
      1 <= size <= BATCH_SIZE /\
      (earlier = [] \/ exists before, earlier = Delay :: before) /\
      Throttled earlier
  | _ :: earlier => Throttled earlier
  end.

(** What a batch adds to the insights, given the model's reply to it. *)
Definition batchInsights {Insight : Type} (ai : string -> string -> option string)
    (parse : string -> option (list Insight)) (query : string)
    (batch : list Filing) : list Insight :=
  SecFinanceEndpoint.insightsOfReply parse
    (default "" (ai (SecFinanceEndpoint.filingsText batch) query)).

(** Every character of the string satisfies [p]. *)
Fixpoint allChars (p : ascii -> bool) (s : string) : bool :=
  match s with
  | EmptyString => true
  | String a s' => p a && allChars p s'
  end.

(** Only white space. *)
Fixpoint blank (s : string) : bool :=
  match s with
  | EmptyString => true
  | String a s' => isSpace a && blank s'
  end.

(** Does not begin with white space. *)
Definition noLeadingSpace (s : string) : bool :=
  match s with
  | EmptyString => true
  | String a _ => negb (isSpace a)
  end.

(** A filing with its ticker field blanked. *)
Definition withoutTicker (f : Filing) : Filing :=
  {| cik := cik f; companyName := companyName f; ticker := None;
     accessionNumber := accessionNumber f; filingDate := filingDate f;
     form := form f; primaryDocument := primaryDocument f |}.

(** The filing passes the form filter of line 123. *)
Definition passesFilter (formFilter : option string) (f : Filing) : bool :=
  negb (formSkipped formFilter (form f)).

(** Events that neither issue a window nor wait. *)
Definition quiet (e : Event) : bool :=
  match e with
  | ConsumeResult _ | Push _ => true
  | _ => false
  end.

(** The content type carries one of the four markers of lines 95-107 of
    sharepoint-search.js. *)
Definition knownType (contentType : string) : bool :=
  includes contentType "wordprocessingml.document" || includes contentType "pdf" ||
  includes contentType "text" || includes contentType "spreadsheetml.sheet".

(** The item id has one of the three endings that lines 95-102 test with
    [endsWith]. *)
Definition knownEnding (itemId : string) : bool :=
  endsWith itemId ".docx" || endsWith itemId ".pdf" || endsWith itemId ".txt".

End ExtraSpec.

(** ** Further concrete inputs *)
Module ExtraFixtures.
Import JS JSMore SecFinance Fixtures.

Definition appleReit : ReferenceRow :=
  {| row_cik := 1418121; row_name := Some "Apple Hospitality REIT, Inc.";
     row_ticker := Some "APLE" |}.

(** Two rows match the name "apple": the first and the last. *)
Definition threeRows : ReferenceTable := [apple; microsoft; appleReit].

(** The 10-K slot of [recentTwo]. *)
Definition tenKSlot : RecentSlot :=
  {| slot_accessionNumber := "0000320193-24-000001"; slot_filingDate := "2024-02-01";
     slot_form := "10-K"; slot_primaryDocument := "b.htm" |}.

(** A model that answers every prompt with the same fenced array, and a
    parser that knows that array only. *)
Definition fencedReply : string -> string -> option string :=
  fun _ _ => Some ("```json" +:+ newline +:+ "[7]" +:+ newline +:+ "```").

Definition parseSeven (text : string) : option (list nat) :=
  if String.eqb text ("[7]" +:+ newline) then Some [7] else None.

Definition threeFilings : list Filing :=
  [ filingOf "A" "0001" "2023-05-01"; filingOf "A" "0002" "2024-02-01";
    filingOf "B" "0001" "2023-11-30" ].

(** A workbook served as a plain byte stream, and libraries that would
    read anything. *)
Definition octetStream : option string -> string -> option SharepointQuery.Download :=
  fun _ _ =>
    Some {| SharepointQuery.contentTypeHeader := Some "application/octet-stream";
            SharepointQuery.body := "PK" |}.

Definition eagerLibraries : SharepointQuery.Extractors :=
  {| SharepointQuery.mammothRawText := fun _ => Some (Some "word");
     SharepointQuery.pdfText := fun _ => Some (Some "pdf");
     SharepointQuery.sheetsCsv := fun _ => Some "a,b" |}.

(** Yahoo knows the ticker of a company the table lists under another
    name. *)
Definition yahooKnows : SecFinanceEndpoint.Upstream :=
  {| SecFinanceEndpoint.nameLookupTable := Some table;
     SecFinanceEndpoint.mappingTable := Some table;
     SecFinanceEndpoint.yahooSymbol := Some (Some "MSFT");
     SecFinanceEndpoint.tickerLookupTable := Some table |}.

(** A download whose content type names a workbook. *)
Definition workbook : option string -> string -> option SharepointQuery.Download :=
  fun _ _ =>
    Some {| SharepointQuery.contentTypeHeader :=
              Some "application/vnd.openxmlformats-officedocument.spreadsheetml.sheet";
            SharepointQuery.body := "PK" |}.

(** Two entities with a filing of the same day, and an older one between
    them in the order of discovery. *)
Definition sameDay : list (list SecFinance.Filing) :=
  [ [ filingOf "A" "0001" "2024-02-01"; filingOf "A" "0002" "2023-05-01" ];
    [ filingOf "B" "0001" "2024-02-01" ] ].

End ExtraFixtures.

(** * Properties *)

(** ** The identifier resolver *)
Section Resolver.
Import JS SecFinance.

Implicit Types (name ticker : option string) (w : World)
  (resp : option ReferenceTable) (row : ReferenceRow).

Lemma truthy_Some s : truthy (Some s) = true -> s <> "".
Proof. destruct s; simpl; congruence. Qed.

Lemma or_else_truthy a b : truthy a = true -> or_else a b = a.
Proof. unfold or_else. intros ->. reflexivity. Qed.

Lemma or_else_falsy a b : truthy a = false -> or_else a b = b.
Proof. unfold or_else. intros ->. reflexivity. Qed.

Lemma mapChars_length f s : String.length (mapChars f s) = String.length s.
Proof. induction s as [|a s IH]; simpl; [reflexivity | now rewrite IH]. Qed.

(** A cache hit answers without touching the world. *)
Lemma cache_hit name ticker resp w v :
  companyCache w !! lookupKey name ticker = Some v ->
  getCIKFromCompanyOrTicker name ticker resp w = (v, w).
Proof. intros H. unfold getCIKFromCompanyOrTicker. now rewrite H. Qed.

(** On a miss the call either completes a scan and records its answer under
    the key, or ends in the [catch] block with the cache as it was. *)
Lemma cache_miss name ticker resp w :
  companyCache w !! lookupKey name ticker = None ->
  let out := getCIKFromCompanyOrTicker name ticker resp w in
  (exists data, resp = Some data /\
     scanRows (normalize name) (normalize ticker) data None <> Raised /\
     out.2 = cacheSet (lookupKey name ticker) out.1 (noteScan (noteFetch w)))
  \/ ((resp = None \/
       exists data, resp = Some data /\
         scanRows (normalize name) (normalize ticker) data None = Raised) /\
      out.1 = None /\
      companyCache out.2 = companyCache w /\
      tableFetches out.2 = S (tableFetches w) /\
      errorsLogged out.2 = S (errorsLogged w)).
Proof.
  intros Hmiss. unfold getCIKFromCompanyOrTicker. rewrite Hmiss.
  destruct resp as [data|]; simpl.
  - destruct (scanRows _ _ data None) eqn:Hscan; simpl.
    + left. exists data. rewrite Hscan. repeat split; congruence.
    + left. exists data. rewrite Hscan. repeat split; congruence.
    + right. split; [right; exists data; auto | auto].
  - right. split; [left; reflexivity | auto].
Qed.

(** The scan stops at the first row whose ticker is the search ticker,
    whatever names were met before it, provided no earlier row made the
    name test raise. *)
Lemma scanRows_ticker_first sn st pre row post best :
  tickerEq st row = true ->
  Forall (fun r => tickerEq st r = false) pre ->
  (truthy sn = true -> Forall (fun r => is_Some (row_name r)) pre) ->
  scanRows sn st (pre ++ row :: post) best = TickerHit row.
Proof.
  intros Hrow Hpre Hnames. revert best.
  induction pre as [|r pre IH]; intros best; simpl.
  - now rewrite Hrow.
  - inversion Hpre as [|? ? Hr Hpre']; subst.
    rewrite Hr.
    destruct (truthy sn) eqn:Hsn.
    + specialize (Hnames eq_refl).
      inversion Hnames as [|? ? [rn Hrn] Hnames']; subst.
      rewrite Hrn. simpl.
      destruct (nameHit _ _); apply IH; auto.
    + apply IH; auto. intros; discriminate.
Qed.

Lemma first_ticker_row st (data : list ReferenceRow) :
  (exists row, row ∈ data /\ tickerEq st row = true) ->
  exists pre row post,
    data = pre ++ row :: post /\ tickerEq st row = true /\
    Forall (fun r => tickerEq st r = false) pre.
Proof.
  induction data as [|r data IH]; intros [row [Hin Hrow]].
  - inversion Hin.
  - destruct (tickerEq st r) eqn:Hr.
    + exists [], r, data. auto.
    + destruct IH as (pre & row' & post & -> & Hrow' & Hpre).
      * exists row. split; [|assumption].
        apply elem_of_cons in Hin as [->|Hin]; [congruence | assumption].
      * exists (r :: pre), row', post. auto.
Qed.

(** A row without a name met before the ticker row ends the call in the
    [catch] block: null is returned and nothing is cached. *)
Example unnamed_row_raises :
  getCIKFromCompanyOrTicker (Some "Apple") (Some "MSFT")
    (Some (Fixtures.unnamed :: Fixtures.table)) initialWorld
  = (None, noteError (noteScan (noteFetch initialWorld))).
Proof. reflexivity. Qed.

End Resolver.

Section ResolverClaims.
Import JS SecFinance Fixtures.

Implicit Types (name ticker : option string) (w : World)
  (resp : option ReferenceTable) (row : ReferenceRow).

(** C1, as stated, fails: names and tickers share the keys of the cache, so
    after "MSFT" was looked up as a name (nothing found, null stored under
    "msft"), [getCIKFromCompanyOrTicker(null, "MSFT")] of sec-finance.js is
    answered null from the cache although a row with ticker MSFT is in the
    table; and the copy in sharepoint-search.js, asked for name "Apple" and
    ticker "MSFT", returns the first row matching by name, Apple's. *)
Lemma ticker_priority_counterexample :
  (exists row, row ∈ table /\ tickerEq (normalize (Some "MSFT")) row = true) /\
  (getCIKFromCompanyOrTicker None (Some "MSFT") (Some table) afterMsftAsName).1 = None /\
  (forall row, row ∈ table ->
     tickerEq (normalize (Some "MSFT")) row = true ->
     SharepointSearch.getCIKFromCompanyOrTicker (Some "Apple") (Some "MSFT") (Some table)
       <> Some (cikString row)).
Proof.
  split; [exists microsoft; split; [right; left | reflexivity] |].
  split; [reflexivity |].
  intros row Hin Ht;
    repeat (apply elem_of_cons in Hin as [-> | Hin]);
    try (vm_compute in Ht; discriminate);
    try (vm_compute; discriminate);
    inversion Hin.
Qed.

(** C1, amended: in sec-finance.js, when the lookup key is not cached, the
    reference table is fetched, and no row lacks a name while a search name
    is given, the call returns the CIK of a row whose lower-cased ticker
    equals the search ticker whenever the table has one, wherever the rows
    matching by name stand, and records it under the lookup key. *)
Theorem ticker_match_wins name ticker (data : ReferenceTable) w :
  companyCache w !! lookupKey name ticker = None ->
  (truthy (normalize name) = true ->
     Forall (fun r => is_Some (row_name r)) data) ->
  (exists row, row ∈ data /\ tickerEq (normalize ticker) row = true) ->
  exists row,
    row ∈ data /\ tickerEq (normalize ticker) row = true /\
    (getCIKFromCompanyOrTicker name ticker (Some data) w).1 = Some (cikString row) /\
    companyCache (getCIKFromCompanyOrTicker name ticker (Some data) w).2
      !! lookupKey name ticker = Some (Some (cikString row)).
Proof.
  intros Hmiss Hnames Hex.
  destruct (first_ticker_row _ _ Hex) as (pre & row & post & -> & Hrow & Hpre).
  exists row. split; [apply elem_of_app; right; left | split; [assumption |]].
  unfold getCIKFromCompanyOrTicker. rewrite Hmiss.
  rewrite (scanRows_ticker_first _ _ pre row post None Hrow Hpre).
  - simpl. split; [reflexivity | apply lookup_insert_eq].
  - intros Hsn. specialize (Hnames Hsn).
    apply Forall_app in Hnames. tauto.
Qed.

Lemma ticker_match_wins_witness :
  exists row,
    row ∈ table /\ tickerEq (normalize (Some "MSFT")) row = true /\
    (getCIKFromCompanyOrTicker (Some "Apple") (Some "MSFT") (Some table) initialWorld).1
      = Some (cikString row) /\
    companyCache
      (getCIKFromCompanyOrTicker (Some "Apple") (Some "MSFT") (Some table) initialWorld).2
      !! lookupKey (Some "Apple") (Some "MSFT") = Some (Some (cikString row)).
Proof.
  apply (ticker_match_wins (Some "Apple") (Some "MSFT") table initialWorld).
  - reflexivity.
  - intros _. repeat constructor; eexists; reflexivity.
  - exists microsoft. split; [right; left | reflexivity].
Defined.

(** C3, as stated, fails: a call whose request for the table fails returns
    null and stores nothing (lines 63-66), so a second call with the same
    key, the request now answered, returns Apple's CIK; and a call whose
    scan raises on a row without a name stores nothing either, so two such
    calls scan the table twice. *)
Lemma resolve_idempotent_counterexample :
  ((getCIKFromCompanyOrTicker (Some "Apple") None None initialWorld).1 = None /\
   (getCIKFromCompanyOrTicker (Some "Apple") None (Some table)
      (getCIKFromCompanyOrTicker (Some "Apple") None None initialWorld).2).1
     = Some "0000320193") /\
  ~ tableScans
      (getCIKFromCompanyOrTicker (Some "Apple") (Some "MSFT") (Some (unnamed :: table))
         (getCIKFromCompanyOrTicker (Some "Apple") (Some "MSFT")
            (Some (unnamed :: table)) initialWorld).2).2
    <= S (tableScans initialWorld).
Proof.
  split; [split; reflexivity |].
  vm_compute. lia.
Qed.

(** C3, amended: two consecutive calls with the same lookup key, the first
    of which does not end in the [catch] block, return the same value; the
    second one leaves the world as it found it (no request, no scan), so the
    two calls scan the table at most once.  This includes the null answer: a
    key stored with null is answered null from the cache. *)
Theorem resolve_idempotent name1 ticker1 name2 ticker2 resp1 resp2 w v1 w1 v2 w2 :
  lookupKey name1 ticker1 = lookupKey name2 ticker2 ->
  getCIKFromCompanyOrTicker name1 ticker1 resp1 w = (v1, w1) ->
  errorsLogged w1 = errorsLogged w ->
  getCIKFromCompanyOrTicker name2 ticker2 resp2 w1 = (v2, w2) ->
  v2 = v1 /\ w2 = w1 /\
  tableScans w2 <= S (tableScans w) /\
  companyCache w1 !! lookupKey name1 ticker1 = Some v1 /\
  (v1 = None -> v2 = None /\ tableScans w2 = tableScans w1).
Proof.
  intros Hkey H1 Hok H2.
  assert (Hstored : companyCache w1 !! lookupKey name1 ticker1 = Some v1
                    /\ tableScans w1 <= S (tableScans w)).
  { destruct (companyCache w !! lookupKey name1 ticker1) as [cached|] eqn:Hc.
    - rewrite (cache_hit _ _ _ _ _ Hc) in H1. inversion H1; subst. auto.
    - pose proof (cache_miss name1 ticker1 resp1 w Hc) as Hm.
      rewrite H1 in Hm. simpl in Hm.
      destruct Hm as [(data & _ & _ & ->) | (_ & _ & _ & _ & Herr)].
      + simpl. split; [apply lookup_insert_eq | lia].
      + rewrite Hok in Herr. lia. }
  destruct Hstored as [Hstored Hscans].
  rewrite Hkey in Hstored.
  rewrite (cache_hit _ _ _ _ _ Hstored) in H2. inversion H2; subst.
  rewrite <- Hkey in Hstored.
  repeat split; auto.
Qed.

Lemma resolve_idempotent_witness :
  Some "0000320193" = Some "0000320193" /\ afterApple = afterApple /\
  tableScans afterApple <= S (tableScans initialWorld) /\
  companyCache afterApple !! lookupKey (Some "Apple") None = Some (Some "0000320193") /\
  (Some "0000320193" = None ->
   Some "0000320193" = None /\ tableScans afterApple = tableScans afterApple).
Proof.
  apply (resolve_idempotent (Some "Apple") None (Some "apple") (Some "MSFT")
           (Some table) None initialWorld (Some "0000320193") afterApple
           (Some "0000320193") afterApple);
    vm_compute; reflexivity.
Defined.

(** C4, as stated, fails: the key of a padded ticker keeps its blanks, and
    when a name and a ticker are both given the key is made from the name. *)
Lemma lookup_key_counterexample :
  lookupKey None (Some " AAPL ") <> Spec.lookupKey None (Some " AAPL ") /\
  lookupKey (Some "Apple") (Some "AAPL") <> Spec.lookupKey (Some "Apple") (Some "AAPL").
Proof. split; vm_compute; discriminate. Qed.

(** C4, amended: the lookup key is the lower-cased ticker when a ticker and
    no name is given, the lower-cased name when a name and no ticker is
    given, and the empty string when neither is; nothing is trimmed (the key
    is as long as the string it is made from). *)
Theorem lookup_key_lowercased name ticker :
  (forall t, truthy name = false -> ticker = Some t -> t <> "" ->
     lookupKey name ticker = toLowerCase t /\
     String.length (lookupKey name ticker) = String.length t) /\
  (forall n, name = Some n -> n <> "" -> truthy ticker = false ->
     lookupKey name ticker = toLowerCase n /\
     String.length (lookupKey name ticker) = String.length n) /\
  (truthy name = false -> truthy ticker = false -> lookupKey name ticker = "").
Proof.
  unfold lookupKey, toLowerCase. repeat split.
  - subst. rewrite (or_else_falsy name) by assumption.
    destruct t; [congruence | reflexivity].
  - subst. rewrite (or_else_falsy name) by assumption.
    destruct t; [congruence | simpl; now rewrite mapChars_length].
  - subst. destruct n; [congruence | reflexivity].
  - subst. destruct n; [congruence | simpl; now rewrite mapChars_length].
  - intros Hn Ht. rewrite (or_else_falsy name) by assumption.
    rewrite or_else_falsy by assumption. reflexivity.
Qed.

Lemma lookup_key_lowercased_witness :
  lookupKey None (Some " AAPL ") = " aapl " /\
  lookupKey (Some "Apple Inc.") None = "apple inc." /\
  lookupKey None None = "".
Proof.
  destruct (lookup_key_lowercased None (Some " AAPL ")) as (Ht & _ & _).
  destruct (lookup_key_lowercased (Some "Apple Inc.") None) as (_ & Hn & _).
  destruct (lookup_key_lowercased None None) as (_ & _ & He).
  split; [| split].
  - apply (Ht " AAPL " eq_refl eq_refl). discriminate.
  - apply (Hn "Apple Inc." eq_refl); [discriminate | reflexivity].
  - apply He; reflexivity.
Defined.

(** With both given, the key is the name: a name-only call that stored null
    answers the later call that adds the ticker (lines 340 and 372 of the
    endpoint make these two calls in a row). *)
Example name_key_shadows_ticker :
  lookupKey (Some "Redmond") (Some "MSFT") = "redmond" /\
  (getCIKFromCompanyOrTicker (Some "Redmond") (Some "MSFT") (Some table)
     (getCIKFromCompanyOrTicker (Some "Redmond") None (Some table) initialWorld).2).1
  = None /\
  (getCIKFromCompanyOrTicker (Some "Redmond") (Some "MSFT") (Some table) initialWorld).1
  = Some "0000789019".
Proof. repeat split; reflexivity. Qed.

(** C9: when the key is not cached and the request for the reference table
    fails, the call returns null and leaves the cache as it was; a later
    call with the same key then requests the table again and answers what
    a first call would have answered.  The cache changes only in a call
    whose scan ran to an answer. *)
Theorem failed_fetch_not_cached name ticker w :
  companyCache w !! lookupKey name ticker = None ->
  let out := getCIKFromCompanyOrTicker name ticker None w in
  out.1 = None /\
  companyCache out.2 = companyCache w /\
  (forall name2 ticker2 resp2,
     lookupKey name2 ticker2 = lookupKey name ticker ->
     let again := getCIKFromCompanyOrTicker name2 ticker2 resp2 out.2 in
     tableFetches again.2 = S (tableFetches out.2) /\
     again.1 = (getCIKFromCompanyOrTicker name2 ticker2 resp2 w).1) /\
  (forall name' ticker' resp' w',
     companyCache (getCIKFromCompanyOrTicker name' ticker' resp' w').2
       <> companyCache w' ->
     exists data, resp' = Some data /\
       scanRows (normalize name') (normalize ticker') data None <> Raised).
Proof.
  intros Hmiss. unfold getCIKFromCompanyOrTicker at 1 2. rewrite Hmiss. simpl.
  split; [reflexivity | split; [reflexivity | split]].
  - intros name2 ticker2 resp2 Hkey.
    unfold getCIKFromCompanyOrTicker. simpl. rewrite Hkey, Hmiss.
    destruct resp2 as [data|]; simpl; [| split; reflexivity].
    destruct (scanRows _ _ data None); split; reflexivity.
  - intros name' ticker' resp' w' Hchg.
    destruct (companyCache w' !! lookupKey name' ticker') as [cached|] eqn:Hc.
    + rewrite (cache_hit _ _ _ _ _ Hc) in Hchg. simpl in Hchg. congruence.
    + destruct (cache_miss name' ticker' resp' w' Hc)
        as [(data & -> & Hscan & _) | (_ & _ & Hsame & _)].
      * exists data. auto.
      * congruence.
Qed.

Lemma failed_fetch_not_cached_witness :
  (getCIKFromCompanyOrTicker (Some "Apple") None None initialWorld).1 = None /\
  (getCIKFromCompanyOrTicker (Some "Apple") None (Some table)
     (getCIKFromCompanyOrTicker (Some "Apple") None None initialWorld).2).1
    = Some "0000320193".
Proof.
  destruct (failed_fetch_not_cached (Some "Apple") None initialWorld eq_refl)
    as (Hnull & _ & Hagain & _).
  split; [exact Hnull |].
  destruct (Hagain (Some "Apple") None (Some table) eq_refl) as [_ ->].
  reflexivity.
Defined.

End ResolverClaims.

(** ** [Array.prototype.sort] *)
Section SortFacts.
Import JS.
Context {A : Type} (comparefn : A -> A -> option Z).

Lemma insertSorted_Permutation x (l : list A) :
  insertSorted comparefn x l ≡ₚ x :: l.
Proof.
  induction l as [|y l IH]; simpl; [reflexivity |].
  destruct (sortCompare comparefn x y <=? 0)%Z; [reflexivity |].
  rewrite IH. apply Permutation_swap.
Qed.

Lemma sort_Permutation (l : list A) : sort comparefn l ≡ₚ l.
Proof.
  induction l as [|x l IH]; simpl; [reflexivity |].
  rewrite insertSorted_Permutation. now rewrite IH.
Qed.

Lemma sort_length (l : list A) : length (sort comparefn l) = length l.
Proof. apply Permutation_length, sort_Permutation. Qed.

(** On a set [S] of elements where the comparator agrees with a transitive
    relation [R] ([x] may stand before [y] exactly when the comparator does
    not ask for the opposite), the result is sorted by [R]. *)
Variables (S : A -> Prop) (R : A -> A -> Prop).
Hypothesis R_le : forall x y, S x -> S y -> (sortCompare comparefn x y <= 0)%Z -> R x y.
Hypothesis R_gt : forall x y, S x -> S y -> (0 < sortCompare comparefn x y)%Z -> R y x.
Hypothesis R_trans : forall x y z, S x -> S y -> S z -> R x y -> R y z -> R x z.

Lemma insertSorted_StronglySorted x (l : list A) :
  S x -> Forall S l -> StronglySorted R l ->
  StronglySorted R (insertSorted comparefn x l).
Proof.
  intros Hx Hl Hs. induction Hs as [|y l Hs IH Hy]; simpl.
  - repeat constructor.
  - apply Forall_cons in Hl as [HSy HSl].
    destruct (sortCompare comparefn x y <=? 0)%Z eqn:Hc.
    + apply Z.leb_le in Hc. pose proof (R_le x y Hx HSy Hc) as Hxy.
      constructor; [constructor; assumption |].
      constructor; [assumption |].
      rewrite Forall_forall in Hy, HSl |- *.
      intros z Hz. apply (R_trans x y z); auto.
    + apply Z.leb_gt in Hc. pose proof (R_gt x y Hx HSy Hc) as Hyx.
      constructor; [apply IH; assumption |].
      rewrite (insertSorted_Permutation x l). constructor; assumption.
Qed.

Lemma sort_StronglySorted (l : list A) :
  Forall S l -> StronglySorted R (sort comparefn l).
Proof.
  induction l as [|x l IH]; intros Hl; simpl; [constructor |].
  apply Forall_cons in Hl as [Hx Hl].
  apply insertSorted_StronglySorted; auto.
  now rewrite sort_Permutation.
Qed.

End SortFacts.

(** ** The aggregation loop *)
Section AggregationFacts.
Import JS SecFinance Spec.
Context {Entity : Type} (perEntityFetch : Entity -> list Filing) (limit : nat).

Implicit Types (st : Collector) (arr fs acc : list Filing) (f : Filing).

Lemma alreadyCollected_false f acc :
  alreadyCollected f acc = false <-> filingKey f ∉ filingKey <$> acc.
Proof.
  unfold alreadyCollected. rewrite <- not_true_iff_false, existsb_exists.
  rewrite list_elem_of_fmap. split; intros H Hin; apply H.
  - destruct Hin as (x & Hx & Hin). exists x.
    split; [now apply list_elem_of_In | now apply String.eqb_eq].
  - destruct Hin as (x & Hin & Hx). exists x.
    split; [now apply String.eqb_eq in Hx | now apply list_elem_of_In].
Qed.

(** *** First-seen-wins deduplication *)

Lemma firstSeen_cons acc f fs :
  firstSeen acc (f :: fs) =
  firstSeen (if alreadyCollected f acc then acc else acc ++ [f]) fs.
Proof. reflexivity. Qed.

Lemma firstSeen_app acc fs gs :
  firstSeen acc (fs ++ gs) = firstSeen (firstSeen acc fs) gs.
Proof. apply foldl_app. Qed.

Lemma firstSeen_extends acc fs : exists ext, firstSeen acc fs = acc ++ ext.
Proof.
  revert acc. induction fs as [|f fs IH]; intros acc.
  - exists []. simpl. now rewrite app_nil_r.
  - rewrite firstSeen_cons. destruct (alreadyCollected f acc).
    + apply IH.
    + destruct (IH (acc ++ [f])) as [ext ->].
      exists (f :: ext). now rewrite <- app_assoc.
Qed.

Lemma firstSeen_saturated acc fs :
  limit <= length acc -> take limit (firstSeen acc fs) = take limit acc.
Proof.
  intros Hlen. destruct (firstSeen_extends acc fs) as [ext ->].
  now apply take_app_le.
Qed.

Lemma firstSeen_take acc fs :
  take limit (firstSeen (take limit acc) fs) = take limit (firstSeen acc fs).
Proof.
  destruct (decide (length acc <= limit)) as [Hle|Hgt].
  - now rewrite (take_ge acc) by assumption.
  - rewrite !firstSeen_saturated.
    + apply take_idemp.
    + lia.
    + rewrite length_take. lia.
Qed.

Lemma firstSeen_NoDup acc fs :
  NoDup (filingKey <$> acc) -> NoDup (filingKey <$> firstSeen acc fs).
Proof.
  revert acc. induction fs as [|f fs IH]; intros acc Hacc; [assumption |].
  rewrite firstSeen_cons. destruct (alreadyCollected f acc) eqn:Hf.
  - now apply IH.
  - apply IH. rewrite fmap_app. apply NoDup_app. split; [assumption |].
    split; [| apply NoDup_singleton].
    intros k Hk Hk'. apply list_elem_of_singleton in Hk'. subst k.
    now apply alreadyCollected_false in Hf.
Qed.

Lemma firstSeen_subset acc fs f :
  f ∈ firstSeen acc fs -> f ∈ acc \/ f ∈ fs.
Proof.
  revert acc. induction fs as [|g fs IH]; intros acc Hin; [now left |].
  rewrite firstSeen_cons in Hin. apply IH in Hin as [Hin | Hin].
  - destruct (alreadyCollected g acc); [now left |].
    apply elem_of_app in Hin as [Hin | Hin]; [now left |].
    apply list_elem_of_singleton in Hin. subst. right. now left.
  - right. now right.
Qed.

(** *** What the three loops collect *)

Lemma consumeFilings_collected arr st :
  length (collected st) < limit ->
  collected (consumeFilings limit arr st) =
  take limit (firstSeen (collected st) arr).
Proof.
  revert st. induction arr as [|f arr IH]; intros st Hlt.
  - simpl. symmetry. apply take_ge. lia.
  - rewrite firstSeen_cons. simpl.
    destruct (alreadyCollected f (collected st)); [now apply IH |].
    rewrite length_app. simpl.
    destruct (limit <=? length (collected st) + 1) eqn:Hfull.
    + apply Nat.leb_le in Hfull. simpl.
      rewrite firstSeen_saturated by (rewrite length_app; simpl; lia).
      symmetry. apply take_ge. rewrite length_app. simpl. lia.
    + apply Nat.leb_gt in Hfull. rewrite IH; [reflexivity |].
      simpl. rewrite length_app. simpl. lia.
Qed.

Lemma consumeResults_collected (results : list (list Filing)) st :
  length (collected st) < limit ->
  collected (consumeResults limit results st) =
  take limit (firstSeen (collected st) (concat results)).
Proof.
  revert st. induction results as [|arr results IH]; intros st Hlt.
  - simpl. symmetry. apply take_ge. lia.
  - rewrite concat_cons, firstSeen_app.
    destruct arr as [|f arr]; [now apply IH |].
    cbn [consumeResults].
    set (st1 := note (ConsumeResult (length (f :: arr))) st).
    assert (Hc : collected (consumeFilings limit (f :: arr) st1) =
                 take limit (firstSeen (collected st) (f :: arr)))
      by now apply (consumeFilings_collected (f :: arr) st1).
    destruct (limit <=? _) eqn:Hfull.
    + apply Nat.leb_le in Hfull. rewrite Hc in Hfull |- *.
      rewrite length_take in Hfull.
      rewrite (firstSeen_saturated (firstSeen (collected st) (f :: arr))) by lia.
      reflexivity.
    + apply Nat.leb_gt in Hfull. rewrite IH by assumption.
      rewrite Hc. apply firstSeen_take.
Qed.

Lemma batchLoop_collected fuel (ciks : list Entity) i st :
  length (collected st) <= limit ->
  length ciks <= i + BATCH_SIZE * fuel ->
  collected (batchLoop perEntityFetch limit fuel ciks i st) =
  take limit (firstSeen (collected st) (concat (perEntityFetch <$> drop i ciks))).
Proof.
  revert i st. induction fuel as [|fuel IH]; intros i st Hle Hfuel.
  - simpl. rewrite drop_ge by lia. simpl. symmetry. now apply take_ge.
  - cbn [batchLoop].
    destruct (i <? length ciks) eqn:Hi; simpl.
    2: { apply Nat.ltb_ge in Hi. rewrite drop_ge by lia. simpl.
         symmetry. now apply take_ge. }
    destruct (length (collected st) <? limit) eqn:Hlim.
    2: { apply Nat.ltb_ge in Hlim. rewrite firstSeen_saturated by assumption.
         symmetry. now apply take_ge. }
    apply Nat.ltb_lt in Hlim.
    rewrite IH.
    + simpl. rewrite consumeResults_collected by assumption. simpl.
      rewrite firstSeen_take, <- firstSeen_app, <- concat_app, <- fmap_app.
      rewrite <- (drop_drop ciks), take_drop. reflexivity.
    + simpl. rewrite consumeResults_collected by assumption.
      rewrite length_take. lia.
    + unfold BATCH_SIZE in *. lia.
Qed.

(** The loop collects the first [limit] filings of the per-entity results
    read in order, first-seen wins. *)
Lemma collect_firstSeen (ciks : list Entity) :
  collected (collect perEntityFetch limit ciks) =
  take limit (firstSeen [] (concat (perEntityFetch <$> ciks))).
Proof.
  unfold collect. rewrite batchLoop_collected; simpl; [reflexivity | lia |].
  unfold BATCH_SIZE. lia.
Qed.

Lemma batchLoop_step fuel (ciks : list Entity) i st :
  batchLoop perEntityFetch limit (S fuel) ciks i st =
  if (i <? length ciks) && (length (collected st) <? limit) then
    batchLoop perEntityFetch limit fuel ciks (i + BATCH_SIZE)
      (note Delay
         (consumeResults limit (perEntityFetch <$> take BATCH_SIZE (drop i ciks))
            (note (IssueWindow (length (take BATCH_SIZE (drop i ciks)))) st)))
  else st.
Proof. reflexivity. Qed.

(** The loop never stops for want of fuel: once [fuel] covers the entities
    left, one more unit of it changes nothing, neither in what is collected
    nor in the trace. *)
Lemma batchLoop_fuel_enough fuel (ciks : list Entity) i st :
  length ciks <= i + BATCH_SIZE * fuel ->
  batchLoop perEntityFetch limit (S fuel) ciks i st =
  batchLoop perEntityFetch limit fuel ciks i st.
Proof.
  revert i st. induction fuel as [|fuel IH]; intros i st Hfuel.
  - cbn [batchLoop].
    assert (Hi : (i <? length ciks) = false) by (apply Nat.ltb_ge; lia).
    now rewrite Hi.
  - rewrite (batchLoop_step fuel), (batchLoop_step (S fuel)).
    destruct ((i <? length ciks) && (length (collected st) <? limit));
      [| reflexivity].
    apply IH. unfold BATCH_SIZE in *. lia.
Qed.

Lemma batchLoop_fuel extra (ciks : list Entity) :
  batchLoop perEntityFetch limit (length ciks + extra) ciks 0
    {| collected := []; trace := [] |}
  = collect perEntityFetch limit ciks.
Proof.
  unfold collect. induction extra as [|extra IH].
  - now rewrite Nat.add_0_r.
  - rewrite Nat.add_succ_r, batchLoop_fuel_enough; [assumption |].
    unfold BATCH_SIZE. lia.
Qed.

End AggregationFacts.

(** ** The trace of the aggregation loop *)
Section TraceFacts.
Import JS SecFinance Spec.
Context {Entity : Type} (perEntityFetch : Entity -> list Filing) (limit : nat).

Implicit Types (st : Collector) (arr : list Filing).

Lemma push_Accounted f st : Accounted limit st -> Accounted limit (push f st).
Proof.
  intros [Hb Hp]. split; simpl.
  - split; [discriminate | assumption].
  - rewrite length_app. simpl. lia.
Qed.

Lemma note_Accounted e st :
  Accounted limit st -> (startsWork e = true -> length (collected st) < limit) ->
  (forall k, e <> Push k) ->
  Accounted limit (note e st).
Proof.
  intros [Hb Hp] He Hk. split; simpl.
  - split; [rewrite Hp; assumption | assumption].
  - destruct e; try assumption. now destruct (Hk key).
Qed.

Lemma consumeFilings_Accounted arr st :
  Accounted limit st -> Accounted limit (consumeFilings limit arr st).
Proof.
  revert st. induction arr as [|f arr IH]; intros st Hst; simpl; [assumption |].
  destruct (alreadyCollected f (collected st)); [now apply IH |].
  destruct (limit <=? _); [now apply push_Accounted |].
  now apply IH, push_Accounted.
Qed.

Lemma consumeResults_Accounted (results : list (list Filing)) st :
  Accounted limit st -> length (collected st) < limit ->
  Accounted limit (consumeResults limit results st).
Proof.
  revert st. induction results as [|arr results IH]; intros st Hst Hlt;
    [assumption |].
  assert (Hnote : Accounted limit (note (ConsumeResult (length arr)) st))
    by (apply note_Accounted; [assumption | auto | discriminate]).
  destruct arr as [|f arr]; [now apply IH |].
  cbn [consumeResults].
  destruct (limit <=? _) eqn:Hfull.
  - now apply consumeFilings_Accounted.
  - apply Nat.leb_gt in Hfull.
    apply IH; [now apply consumeFilings_Accounted | assumption].
Qed.

Lemma batchLoop_Accounted fuel (ciks : list Entity) i st :
  Accounted limit st -> Accounted limit (batchLoop perEntityFetch limit fuel ciks i st).
Proof.
  revert i st. induction fuel as [|fuel IH]; intros i st Hst; [assumption |].
  cbn [batchLoop].
  destruct (i <? length ciks); simpl; [|assumption].
  destruct (length (collected st) <? limit) eqn:Hlim; [|assumption].
  apply Nat.ltb_lt in Hlim.
  apply IH, note_Accounted; [| discriminate | discriminate].
  apply consumeResults_Accounted; [|assumption].
  apply note_Accounted; [assumption | auto | discriminate].
Qed.

Lemma collect_Accounted (ciks : list Entity) :
  Accounted limit (collect perEntityFetch limit ciks).
Proof. apply batchLoop_Accounted. split; simpl; auto. Qed.

Lemma withinBudget_split (later : list Event) e earlier :
  withinBudget limit (later ++ e :: earlier) ->
  startsWork e = true -> pushes earlier < limit.
Proof.
  induction later as [|e' later IH]; simpl; intros [He Hb]; auto.
Qed.

End TraceFacts.

Section FilingFacts.
Import JS SecFinance Spec.

(** The index loop reads the first [bound] slots and keeps those the form
    filter lets through. *)
Lemma filingsLoop_window mk formFilter bound (recent : list RecentSlot) :
  filingsLoop mk formFilter bound recent =
  mk <$> List.filter (fun s => negb (formSkipped formFilter (slot_form s)))
           (take bound recent).
Proof.
  revert recent. induction bound as [|bound IH]; intros [|s recent]; simpl;
    try reflexivity.
  destruct (formSkipped formFilter (slot_form s)); simpl; now rewrite IH.
Qed.

Lemma filter_length_le {A} (p : A -> bool) (l : list A) :
  length (List.filter p l) <= length l.
Proof. induction l as [|x l IH]; simpl; [lia | destruct (p x); simpl; lia]. Qed.

Lemma elem_of_concat {A} (x : A) (ls : list (list A)) :
  x ∈ concat ls -> exists l, l ∈ ls /\ x ∈ l.
Proof.
  induction ls as [|l ls IH]; simpl; intros Hx; [inversion Hx |].
  apply elem_of_app in Hx as [Hx | Hx].
  - exists l. split; [left | assumption].
  - destruct (IH Hx) as (l' & Hl' & Hx'). exists l'. split; [now right | assumption].
Qed.

Lemma filingKey_of_id f : filingKey f = (filingId f).1 +:+ "-" +:+ (filingId f).2.
Proof. reflexivity. Qed.

Lemma NoDup_keys_ids (l : list Filing) :
  NoDup (filingKey <$> l) -> NoDup (filingId <$> l).
Proof.
  intros H. apply (NoDup_fmap_1 (fun p : string * string => p.1 +:+ "-" +:+ p.2)).
  now rewrite <- list_fmap_compose.
Qed.

End FilingFacts.

Section AggregationClaims.
Import JS SecFinance Spec Fixtures.

(** What the collect / sort / slice pipeline returns. *)
Lemma aggregate_facts {Entity : Type}
    (dateValue : string -> option Z) (perEntityFetch : Entity -> list Filing)
    (ciks : list Entity) (limit : nat) :
  NoDup (filingId <$> aggregate dateValue perEntityFetch ciks limit) /\
  length (aggregate dateValue perEntityFetch ciks limit) <= limit /\
  ((forall e f, e ∈ ciks -> f ∈ perEntityFetch e ->
      is_Some (dateValue (filingDate f))) ->
   StronglySorted (NewerOrSame dateValue)
     (aggregate dateValue perEntityFetch ciks limit)).
Proof.
  unfold aggregate.
  set (C := collected (collect perEntityFetch limit ciks)).
  assert (HC : C = take limit (firstSeen [] (concat (perEntityFetch <$> ciks))))
    by apply collect_firstSeen.
  split; [| split; [| intros Hvalid]].
  - apply NoDup_keys_ids.
    eapply sublist_NoDup; [| apply fmap_sublist, sublist_take].
    rewrite sort_Permutation, HC.
    eapply sublist_NoDup; [| apply fmap_sublist, sublist_take].
    apply firstSeen_NoDup. constructor.
  - rewrite length_take. lia.
  - assert (Hsorted : StronglySorted (NewerOrSame dateValue) (sort (byDateDesc dateValue) C)).
    { apply (sort_StronglySorted _ (fun f => is_Some (dateValue (filingDate f)))).
      - intros x y [tx Hx] [ty Hy] Hc. exists tx, ty.
        unfold sortCompare, byDateDesc in Hc. rewrite Hx, Hy in Hc. simpl in Hc.
        repeat split; auto; lia.
      - intros x y [tx Hx] [ty Hy] Hc. exists ty, tx.
        unfold sortCompare, byDateDesc in Hc. rewrite Hx, Hy in Hc. simpl in Hc.
        repeat split; auto; lia.
      - intros x y z _ _ _ (tx & ty & Hx & Hy & Hxy) (ty' & tz & Hy' & Hz & Hyz).
        exists tx, tz. repeat split; auto.
        rewrite Hy in Hy'. inversion Hy'; subst. lia.
      - rewrite Forall_forall. intros f Hf. rewrite HC in Hf.
        apply subseteq_take in Hf. apply firstSeen_subset in Hf as [Hf | Hf];
          [inversion Hf |].
        apply elem_of_concat in Hf as (fs & Hfs & Hf).
        apply list_elem_of_fmap in Hfs as (e & -> & He). eauto. }
    rewrite <- (take_drop limit (sort (byDateDesc dateValue) C)) in Hsorted.
    now apply StronglySorted_app_1_l in Hsorted.
Qed.

(** C2: for any per-entity results and any limit, the aggregation of
    [fetchLatestFilingsByForm] returns no two filings with the same
    (cik, accessionNumber), at most [limit] filings, and, the filing dates
    being valid dates, a list in descending order of filing date; so does
    [fetchLatestFilingsByForm] itself, whatever the network answers. *)
Theorem aggregate_dedup_sorted_bounded {Entity : Type}
    (dateValue : string -> option Z) (perEntityFetch : Entity -> list Filing)
    (ciks : list Entity) (limit : nat) (net : Network) (formFilter : option string) :
  (NoDup (filingId <$> aggregate dateValue perEntityFetch ciks limit) /\
   length (aggregate dateValue perEntityFetch ciks limit) <= limit /\
   ((forall e f, e ∈ ciks -> f ∈ perEntityFetch e ->
       is_Some (dateValue (filingDate f))) ->
    StronglySorted (NewerOrSame dateValue)
      (aggregate dateValue perEntityFetch ciks limit))) /\
  (NoDup (filingId <$> fetchLatestFilingsByForm dateValue net formFilter limit) /\
   length (fetchLatestFilingsByForm dateValue net formFilter limit) <= limit /\
   ((forall cik f, f ∈ fetchFilingsFromSECByCIK net cik 10 formFilter ->
       is_Some (dateValue (filingDate f))) ->
    StronglySorted (NewerOrSame dateValue)
      (fetchLatestFilingsByForm dateValue net formFilter limit))).
Proof.
  split; [apply aggregate_facts |].
  unfold fetchLatestFilingsByForm.
  destruct (getTickers net) as [data|]; simpl.
  - destruct (aggregate_facts dateValue
                (fun cik => fetchFilingsFromSECByCIK net cik 10 formFilter)
                (cikString <$> data) limit) as (Hnd & Hlen & Hsorted).
    repeat split; [assumption | assumption |].
    intros Hvalid. apply Hsorted. intros cik f _. apply Hvalid.
  - repeat split; [constructor | lia | constructor].
Qed.

Lemma aggregate_dedup_sorted_bounded_witness :
  StronglySorted (NewerOrSame isoDate) (aggregate isoDate id feeds 2) /\
  StronglySorted (NewerOrSame isoDate)
    (fetchLatestFilingsByForm isoDate appleOnly (Some "10-K") 2).
Proof.
  destruct (aggregate_dedup_sorted_bounded isoDate id feeds 2 appleOnly (Some "10-K"))
    as [(_ & _ & Hagg) (_ & _ & Hlatest)].
  split.
  - apply Hagg. intros e f He Hf.
    repeat (apply elem_of_cons in He as [-> | He]);
      try (inversion He);
      repeat (apply elem_of_cons in Hf as [-> | Hf]);
      try (inversion Hf); eexists; reflexivity.
  - apply Hlatest. intros cik f Hf.
    unfold fetchFilingsFromSECByCIK, appleOnly in Hf. simpl in Hf.
    destruct (String.eqb cik "0000320193"); simpl in Hf; [| inversion Hf].
    repeat (apply elem_of_cons in Hf as [-> | Hf]);
      try (inversion Hf); eexists; reflexivity.
Defined.

(** C5: every window is issued, and every per-entity result is taken up,
    while fewer than [limit] filings are collected; the collected filings
    never exceed [limit].  With batches of 5, 12 entities with one filing
    each and limit 3, one window is issued and three of its five results
    are consumed. *)
Theorem budget_stops_windows {Entity : Type}
    (perEntityFetch : Entity -> list Filing) (limit : nat) (ciks : list Entity) :
  (forall later e earlier,
     trace (collect perEntityFetch limit ciks) = later ++ e :: earlier ->
     startsWork e = true -> pushes earlier < limit) /\
  pushes (trace (collect perEntityFetch limit ciks)) =
    length (collected (collect perEntityFetch limit ciks)) /\
  length (collected (collect perEntityFetch limit ciks)) <= limit /\
  (BATCH_SIZE = 5 /\ length twelve = 12 /\
   trace (collect oneEach 3 twelve) =
     [ Delay;
       Push "03-0000000000-24-000003"; ConsumeResult 1;
       Push "02-0000000000-24-000002"; ConsumeResult 1;
       Push "01-0000000000-24-000001"; ConsumeResult 1;
       IssueWindow 5 ] /\
   windows (trace (collect oneEach 3 twelve)) = 1).
Proof.
  destruct (collect_Accounted perEntityFetch limit ciks) as [Hb Hp].
  split; [| split; [assumption | split]].
  - intros later e earlier Htr He. rewrite Htr in Hb.
    now apply (withinBudget_split limit later e earlier).
  - rewrite collect_firstSeen, length_take. lia.
  - repeat split; vm_compute; reflexivity.
Qed.

(** C8: a per-entity request that fails yields the empty list, and the
    batch goes on: the result of [fetchLatestFilingsByForm] is the
    aggregation over the other entities. *)
Theorem failed_entity_skipped (dateValue : string -> option Z) (net : Network)
    (data : ReferenceTable) (pre post : list string) (failing : string)
    (formFilter : option string) (limit : nat) :
  getTickers net = Some data ->
  cikString <$> data = pre ++ failing :: post ->
  getSubmissions net failing = None ->
  (forall n, fetchFilingsFromSECByCIK net failing n formFilter = []) /\
  fetchLatestFilingsByForm dateValue net formFilter limit =
    aggregate dateValue (fun cik => fetchFilingsFromSECByCIK net cik 10 formFilter)
      (pre ++ post) limit.
Proof.
  intros Htickers Hciks Hfail.
  assert (Hempty : forall n, fetchFilingsFromSECByCIK net failing n formFilter = []).
  { intros n. unfold fetchFilingsFromSECByCIK. now rewrite Hfail. }
  split; [assumption |].
  unfold fetchLatestFilingsByForm. rewrite Htickers. simpl. rewrite Hciks.
  unfold aggregate. rewrite !collect_firstSeen.
  rewrite !fmap_app, fmap_cons, !concat_app, concat_cons, Hempty.
  reflexivity.
Qed.

Lemma failed_entity_skipped_witness :
  (forall n, fetchFilingsFromSECByCIK appleOnly "0000789019" n (Some "10-K") = []) /\
  fetchLatestFilingsByForm isoDate appleOnly (Some "10-K") 10 =
    aggregate isoDate (fun cik => fetchFilingsFromSECByCIK appleOnly cik 10 (Some "10-K"))
      (["0000320193"] ++ []) 10.
Proof.
  apply (failed_entity_skipped isoDate appleOnly table ["0000320193"] []
           "0000789019" (Some "10-K") 10); reflexivity.
Defined.

(** C10: the per-entity fetch reads the first min(total, limit) slots of
    the recent-filings arrays and filters by form inside that window, so
    slots beyond it never contribute and the result may hold fewer than
    [limit] filings, even none, although a later slot matches. *)
Theorem limit_bounds_scanned_slots (net : Network) (cik : string)
    (res : Submissions) (recent : list RecentSlot) (limit : nat)
    (formFilter : option string) :
  getSubmissions net cik = Some res ->
  sub_recent res = Some recent ->
  fetchFilingsFromSECByCIK net cik limit formFilter =
    mkFiling cik res (tickerOfCIK (getTickers net) cik) <$>
      List.filter (fun s => negb (formSkipped formFilter (slot_form s)))
        (take (Nat.min (length recent) limit) recent) /\
  length (fetchFilingsFromSECByCIK net cik limit formFilter)
    <= Nat.min (length recent) limit /\
  (forall mk beyond, limit <= length recent ->
     filingsLoop mk formFilter (Nat.min (length (recent ++ beyond)) limit)
       (recent ++ beyond) =
     filingsLoop mk formFilter (Nat.min (length recent) limit) recent) /\
  (fetchFilingsFromSECByCIK appleOnly "0000320193" 1 (Some "10-K") = [] /\
   length (fetchFilingsFromSECByCIK appleOnly "0000320193" 2 (Some "10-K")) = 1).
Proof.
  intros Hres Hrecent.
  assert (Heq : fetchFilingsFromSECByCIK net cik limit formFilter =
    mkFiling cik res (tickerOfCIK (getTickers net) cik) <$>
      List.filter (fun s => negb (formSkipped formFilter (slot_form s)))
        (take (Nat.min (length recent) limit) recent)).
  { unfold fetchFilingsFromSECByCIK. rewrite Hres, Hrecent. simpl.
    apply filingsLoop_window. }
  split; [assumption | split; [| split]].
  - rewrite Heq, length_fmap.
    etransitivity; [apply filter_length_le |]. rewrite length_take. lia.
  - intros mk beyond Hlen. rewrite !filingsLoop_window, length_app.
    rewrite !Nat.min_r by lia. now rewrite take_app_le.
  - split; reflexivity.
Qed.

Lemma limit_bounds_scanned_slots_witness :
  length (fetchFilingsFromSECByCIK appleOnly "0000320193" 1 (Some "10-K"))
    <= Nat.min (length recentTwo) 1.
Proof.
  apply (limit_bounds_scanned_slots appleOnly "0000320193" twoForms recentTwo 1
           (Some "10-K")); reflexivity.
Defined.

End AggregationClaims.

(** ** The candidate ranker *)
Section RankingFacts.
Import JS SharepointSearch RankSpec.

Implicit Types (text lower : string) (keywords : list string) (c : Candidate).

Lemma remove_dups_NoDup {A} `{EqDecision A} (l : list A) :
  NoDup l -> remove_dups l = l.
Proof.
  induction 1 as [|x l Hx Hl IH]; simpl; [reflexivity |].
  destruct (decide_rel elem_of x l); [contradiction | now rewrite IH].
Qed.

Lemma lowerChar_idemp a : lowerChar (lowerChar a) = lowerChar a.
Proof. destruct a as [[] [] [] [] [] [] [] []]; reflexivity. Qed.

Lemma toLowerCase_idemp s : toLowerCase (toLowerCase s) = toLowerCase s.
Proof.
  unfold toLowerCase. induction s as [|a s IH]; simpl; [reflexivity |].
  now rewrite lowerChar_idemp, IH.
Qed.

(** The loop adds one for every entry of the keyword list that occurs in
    the text, repeated entries included. *)
Lemma countLoop_filter lower keywords count :
  countLoop lower keywords count =
  count + length (List.filter (includes lower) keywords).
Proof.
  revert count. induction keywords as [|kw keywords IH]; intros count; simpl.
  - lia.
  - rewrite IH. destruct (includes lower kw); simpl; lia.
Qed.

Lemma countKeywordPresence_filter text keywords :
  text <> "" ->
  countKeywordPresence text keywords =
  length (List.filter (includes (toLowerCase text)) keywords).
Proof.
  intros Htext. unfold countKeywordPresence.
  destruct text; [congruence |]. simpl truthy. simpl negb.
  destruct keywords as [|kw keywords]; [reflexivity |].
  simpl orb. cbv iota. now rewrite countLoop_filter.
Qed.

Lemma countKeywordPresence_none text keywords :
  (forall kw, kw ∈ keywords -> includes (toLowerCase text) kw = false) ->
  countKeywordPresence text keywords = 0.
Proof.
  intros Hnone. unfold countKeywordPresence.
  destruct (negb (truthy (Some text)) || (length keywords =? 0)); [reflexivity |].
  rewrite countLoop_filter. simpl.
  induction keywords as [|kw keywords IH]; [reflexivity |]. simpl.
  rewrite (Hnone kw) by left. apply IH. intros kw' Hkw'. apply Hnone. now right.
Qed.

Lemma rankCandidates_Scored content keywords (files : list File) :
  Forall (Scored content keywords (previewBudget (scoreName keywords <$> files)))
    (rankCandidates content keywords files).
Proof.
  unfold rankCandidates. rewrite sort_Permutation.
  apply Forall_fmap, Forall_fmap, Forall_forall. intros f _.
  repeat split.
Qed.

End RankingFacts.

Section RankingClaims.
Import JS SharepointSearch RankSpec Fixtures.

(** C6: after ranking, the score of every candidate is three times its
    nameMatches plus its contentMatches, and a candidate none of whose
    keywords occurs in its name or in its content preview has score 0. *)
Theorem rank_score_formula (content : ContentSource) (keywords : list string)
    (files : list File) :
  Forall (fun c => score c = 3 * nameMatches c + contentMatches c)
    (rankCandidates content keywords files) /\
  (forall c,
     c ∈ rankCandidates content keywords files ->
     (forall kw, kw ∈ keywords ->
        includes (nameOf c) kw = false /\
        includes
          (toLowerCase
             (previewOf content (previewBudget (scoreName keywords <$> files)) c))
          kw = false) ->
     nameMatches c = 0 /\ contentMatches c = 0 /\ score c = 0).
Proof.
  pose proof (rankCandidates_Scored content keywords files) as Hall.
  rewrite Forall_forall in Hall. split.
  - rewrite Forall_forall. intros c Hc.
    destruct (Hall c Hc) as (_ & _ & ->). lia.
  - intros c Hc Hnone. destruct (Hall c Hc) as (Hn & Hc' & Hs).
    assert (Hn0 : nameMatches c = 0).
    { rewrite Hn. apply countKeywordPresence_none. intros kw Hkw.
      unfold nameOf. rewrite toLowerCase_idemp. now apply Hnone. }
    assert (Hc0 : contentMatches c = 0).
    { rewrite Hc'. apply countKeywordPresence_none. intros kw Hkw.
      now apply Hnone. }
    rewrite Hs, Hn0, Hc0. auto.
Qed.

Lemma rank_score_formula_witness :
  exists c,
    c ∈ rankCandidates noContent ["budget"] [misc; budgetReport] /\
    file c = misc /\ score c = 0.
Proof.
  exists {| file := misc; nameMatches := 0; contentMatches := 0; score := 0 |}.
  split; [right; left | split; [reflexivity |]].
  apply (rank_score_formula noContent ["budget"] [misc; budgetReport]).
  - right. left.
  - intros kw Hkw. apply list_elem_of_singleton in Hkw as ->.
    split; reflexivity.
Defined.

(** C7 fails on a repeated query word: "budget budget" yields the keyword
    list [budget; budget], and a file named "budget.docx" gets nameMatches
    2 (score 6) where one distinct keyword occurs; the same holds for
    contentMatches. *)
Theorem repeated_keyword_counted_twice :
  extractKeywordsArray "budget budget" = ["budget"; "budget"] /\
  countKeywordPresence "budget.docx" (extractKeywordsArray "budget budget") = 2 /\
  Spec.distinctMatches "budget.docx" (extractKeywordsArray "budget budget") = 1 /\
  (nameMatches <$>
     rankCandidates (fun _ _ => Some "the budget") (extractKeywordsArray "budget budget")
       [ {| id := "01C"; name := Some "budget.docx"; driveId := None; webUrl := None |} ])
    = [2] /\
  (contentMatches <$>
     rankCandidates (fun _ _ => Some "the budget") (extractKeywordsArray "budget budget")
       [ {| id := "01C"; name := Some "budget.docx"; driveId := None; webUrl := None |} ])
    = [2] /\
  (score <$>
     rankCandidates (fun _ _ => Some "the budget") (extractKeywordsArray "budget budget")
       [ {| id := "01C"; name := Some "budget.docx"; driveId := None; webUrl := None |} ])
    = [8].
Proof. repeat split; vm_compute; reflexivity. Qed.

(** The counts agree with the distinct-keyword counts exactly when the
    keyword list has no repeated entry among those that occur. *)
Lemma countKeywordPresence_distinct text (keywords : list string) :
  text <> "" -> NoDup keywords ->
  countKeywordPresence text keywords = Spec.distinctMatches text keywords.
Proof.
  intros Htext Hnd. rewrite countKeywordPresence_filter by assumption.
  unfold Spec.distinctMatches. f_equal. symmetry.
  apply remove_dups_NoDup, NoDup_ListNoDup, List.NoDup_filter.
  now apply NoDup_ListNoDup.
Qed.

End RankingClaims.

(** * Further properties of the resolvers *)
Section ResolverMore.
Import JS JSMore SecFinance ExtraSpec Fixtures.

Implicit Types (name ticker : option string) (w : World)
  (resp : option ReferenceTable) (row : ReferenceRow).

Lemma mapChars_empty f s : mapChars f s = "" <-> s = "".
Proof. destruct s; simpl; split; congruence. Qed.

Lemma truthy_lower (x : option string) : truthy (toLowerCase <$> x) = truthy x.
Proof. destruct x as [[|a s]|]; reflexivity. Qed.

Lemma normalize_lower (x y : option string) :
  toLowerCase <$> x = toLowerCase <$> y -> normalize x = normalize y.
Proof.
  unfold normalize. destruct x as [x|], y as [y|]; simpl; intros H;
    inversion H; congruence.
Qed.

Lemma lookupKey_lower name ticker :
  lookupKey name ticker =
  default "" (or_else (or_else (toLowerCase <$> name) (toLowerCase <$> ticker)) (Some "")).
Proof.
  unfold lookupKey, or_else. rewrite !truthy_lower.
  destruct (truthy name) eqn:Hn.
  - rewrite truthy_lower, Hn. destruct name; [reflexivity | discriminate].
  - destruct (truthy ticker) eqn:Ht.
    + rewrite truthy_lower, Ht. destruct ticker; [reflexivity | discriminate].
    + rewrite truthy_lower, Ht. reflexivity.
Qed.

(** When no row has the search ticker and no row lacks a name the scan
    needs, the loop runs to its end with the last row matching by name, or
    with what it started from if there is none. *)
Lemma scanRows_exhausted sn st (data : list ReferenceRow) best :
  Forall (fun r => tickerEq st r = false) data ->
  (truthy sn = true -> Forall (fun r => is_Some (row_name r)) data) ->
  scanRows sn st data best =
  Exhausted (match last (List.filter (nameMatch sn) data) with
             | Some r => Some r
             | None => best
             end).
Proof.
  intros Ht Hn. revert best. induction data as [|r data IH]; intros best; simpl.
  - reflexivity.
  - apply Forall_cons in Ht as [Hr Ht]. rewrite Hr.
    unfold nameMatch at 1.
    destruct (truthy sn) eqn:Hsn; simpl.
    + specialize (Hn eq_refl). apply Forall_cons in Hn as [[rn Hrn] Hn].
      rewrite Hrn. simpl.
      destruct (nameHit (default "" sn) (toLowerCase rn)).
      * rewrite IH by auto. rewrite last_cons.
        destruct (last (List.filter (nameMatch sn) data)); reflexivity.
      * apply IH; auto.
    + apply IH; auto. intros; discriminate.
Qed.

End ResolverMore.

Section ResolverExtras.
Import JS JSMore SecFinance ExtraSpec Fixtures ExtraFixtures.

Implicit Types (name ticker : option string) (w : World)
  (resp : option ReferenceTable) (row : ReferenceRow).

Lemma tickerEq_falsy st row : truthy st = false -> tickerEq st row = false.
Proof. unfold tickerEq. now intros ->. Qed.

Lemma nameMatch_falsy sn row : truthy sn = false -> nameMatch sn row = false.
Proof. unfold nameMatch. now intros ->. Qed.

Lemma filter_none {A} (p : A -> bool) (l : list A) :
  (forall x, p x = false) -> List.filter p l = [].
Proof.
  intros Hp. induction l as [|x l IH]; simpl; [reflexivity |].
  now rewrite Hp.
Qed.

(** X1: on a cache miss, when no row has the search ticker (or none is
    given), the call answers with the CIK of the last row of the table whose
    name equals or contains the search name, null if there is none, and
    stores that answer. *)
Theorem name_lookup_returns_last_match name ticker (data : ReferenceTable) w :
  companyCache w !! lookupKey name ticker = None ->
  Forall (fun r => is_Some (row_name r)) data ->
  Forall (fun r => tickerEq (normalize ticker) r = false) data ->
  (getCIKFromCompanyOrTicker name ticker (Some data) w).1 =
    cikString <$> last (List.filter (nameMatch (normalize name)) data) /\
  companyCache (getCIKFromCompanyOrTicker name ticker (Some data) w).2
    !! lookupKey name ticker =
    Some (cikString <$> last (List.filter (nameMatch (normalize name)) data)).
Proof.
  intros Hmiss Hnames Hticker.
  unfold getCIKFromCompanyOrTicker. rewrite Hmiss.
  rewrite scanRows_exhausted by auto. simpl.
  destruct (last (List.filter (nameMatch (normalize name)) data));
    (split; [reflexivity | apply lookup_insert_eq]).
Qed.

Lemma name_lookup_returns_last_match_witness :
  (getCIKFromCompanyOrTicker (Some "Apple") None (Some threeRows) initialWorld).1 =
    Some "0001418121".
Proof.
  destruct (name_lookup_returns_last_match (Some "Apple") None threeRows initialWorld)
    as [-> _]; [reflexivity | | | reflexivity].
  - repeat constructor; eexists; reflexivity.
  - repeat constructor.
Defined.

(** X2: when neither a name nor a ticker is left after trimming (both
    missing, empty or blank), a call that misses the cache matches no row of
    any table: it returns null and stores null under its key. *)
Theorem blank_lookup_stores_null name ticker (data : ReferenceTable) w :
  truthy (normalize name) = false ->
  truthy (normalize ticker) = false ->
  companyCache w !! lookupKey name ticker = None ->
  getCIKFromCompanyOrTicker name ticker (Some data) w =
    (None, cacheSet (lookupKey name ticker) None (noteScan (noteFetch w))).
Proof.
  intros Hn Ht Hmiss. unfold getCIKFromCompanyOrTicker. rewrite Hmiss.
  rewrite scanRows_exhausted.
  - rewrite filter_none by (intros; now apply nameMatch_falsy). reflexivity.
  - apply Forall_forall. intros; now apply tickerEq_falsy.
  - rewrite Hn. discriminate.
Qed.

Lemma blank_lookup_stores_null_witness :
  getCIKFromCompanyOrTicker (Some "  ") None (Some table) initialWorld =
    (None, cacheSet "  " None (noteScan (noteFetch initialWorld))).
Proof.
  apply (blank_lookup_stores_null (Some "  ") None table initialWorld); reflexivity.
Defined.

(** X3: a call never changes or removes an entry the cache already has, and
    it touches no key but its own lookup key. *)
Theorem cache_entries_kept name ticker resp w (k : string) :
  (forall v, companyCache w !! k = Some v ->
     companyCache (getCIKFromCompanyOrTicker name ticker resp w).2 !! k = Some v) /\
  (k <> lookupKey name ticker ->
     companyCache (getCIKFromCompanyOrTicker name ticker resp w).2 !! k =
     companyCache w !! k).
Proof.
  destruct (companyCache w !! lookupKey name ticker) as [cached|] eqn:Hc.
  - rewrite (cache_hit _ _ _ _ _ Hc). simpl. auto.
  - destruct (cache_miss name ticker resp w Hc)
      as [(data & _ & _ & ->) | (_ & _ & -> & _)]; [| auto].
    simpl. split.
    + intros v Hv. rewrite lookup_insert_ne; [assumption | congruence].
    + intros Hne. now rewrite lookup_insert_ne.
Qed.

(** X4: the lookup is case-insensitive: a name and a ticker spelled in
    another case give the same answer and the same world. *)
Theorem lookup_case_insensitive name1 ticker1 name2 ticker2 resp w :
  toLowerCase <$> name1 = toLowerCase <$> name2 ->
  toLowerCase <$> ticker1 = toLowerCase <$> ticker2 ->
  getCIKFromCompanyOrTicker name1 ticker1 resp w =
  getCIKFromCompanyOrTicker name2 ticker2 resp w.
Proof.
  intros Hn Ht. unfold getCIKFromCompanyOrTicker.
  rewrite (lookupKey_lower name1), (lookupKey_lower name2), Hn, Ht.
  now rewrite (normalize_lower _ _ Hn), (normalize_lower _ _ Ht).
Qed.

Lemma lookup_case_insensitive_witness :
  getCIKFromCompanyOrTicker (Some "APPLE inc") (Some "Aapl") (Some table) initialWorld =
  getCIKFromCompanyOrTicker (Some "apple INC") (Some "aAPL") (Some table) initialWorld.
Proof. apply lookup_case_insensitive; reflexivity. Defined.

Lemma scanRows_ticker_only st (data : list ReferenceRow) sn best :
  truthy sn = false ->
  scanRows sn st data best =
  match List.find (tickerEq st) data with
  | Some row => TickerHit row
  | None => Exhausted best
  end.
Proof.
  intros Hsn. induction data as [|r data IH]; simpl; [reflexivity |].
  destruct (tickerEq st r); [reflexivity |]. now rewrite Hsn.
Qed.

(** The row loop of sharepoint-search.js stops at the first row that matches
    by name or by ticker. *)
Lemma sharepoint_scanRows_find sn st (data : list ReferenceRow) :
  (truthy sn = true -> Forall (fun r => is_Some (row_name r)) data) ->
  SharepointSearch.scanRows sn st data = Normal (List.find (eitherMatch sn st) data).
Proof.
  intros Hn. induction data as [|r data IH]; simpl; [reflexivity |].
  unfold eitherMatch at 1.
  destruct (truthy sn) eqn:Hsn; simpl.
  - specialize (Hn eq_refl). apply Forall_cons in Hn as [[rn Hrn] Hn].
    rewrite Hrn. simpl.
    destruct (includes (toLowerCase rn) (default "" sn) || tickerEq st r);
      [reflexivity | now apply IH].
  - destruct (tickerEq st r); [reflexivity |]. apply IH. discriminate.
Qed.

(** X5: the resolver of sharepoint-search.js answers with the CIK of the
    first row of the table whose name contains the search name or whose
    ticker is the search ticker, null if there is none. *)
Theorem sharepoint_lookup_returns_first_match name ticker (data : ReferenceTable) :
  (truthy (normalize name) = true -> Forall (fun r => is_Some (row_name r)) data) ->
  SharepointSearch.getCIKFromCompanyOrTicker name ticker (Some data) =
    cikString <$> List.find (eitherMatch (normalize name) (normalize ticker)) data.
Proof.
  intros Hn. unfold SharepointSearch.getCIKFromCompanyOrTicker.
  now rewrite sharepoint_scanRows_find.
Qed.

Lemma sharepoint_lookup_returns_first_match_witness :
  SharepointSearch.getCIKFromCompanyOrTicker (Some "Apple") (Some "APLE") (Some threeRows) =
    Some "0000320193".
Proof.
  rewrite (sharepoint_lookup_returns_first_match (Some "Apple") (Some "APLE") threeRows);
    [reflexivity |].
  intros _. repeat constructor; eexists; reflexivity.
Defined.

(** X6: asked by ticker alone, the two resolvers agree: the copy in
    sharepoint-search.js returns what sec-finance.js returns on a cache
    miss, whatever the table request answers. *)
Theorem resolvers_agree_on_ticker name ticker resp w :
  truthy (normalize name) = false ->
  companyCache w !! lookupKey name ticker = None ->
  SharepointSearch.getCIKFromCompanyOrTicker name ticker resp =
    (getCIKFromCompanyOrTicker name ticker resp w).1.
Proof.
  intros Hn Hmiss.
  unfold SharepointSearch.getCIKFromCompanyOrTicker, getCIKFromCompanyOrTicker.
  rewrite Hmiss. destruct resp as [data|]; simpl; [| reflexivity].
  rewrite sharepoint_scanRows_find by (rewrite Hn; discriminate).
  rewrite scanRows_ticker_only by assumption.
  assert (Hfind : List.find (eitherMatch (normalize name) (normalize ticker)) data =
                  List.find (tickerEq (normalize ticker)) data).
  { induction data as [|r data IH]; simpl; [reflexivity |].
    unfold eitherMatch at 1. rewrite Hn. simpl.
    destruct (tickerEq (normalize ticker) r); [reflexivity | apply IH]. }
  rewrite Hfind. clear Hfind.
  destruct (List.find (tickerEq (normalize ticker)) data); reflexivity.
Qed.

Lemma resolvers_agree_on_ticker_witness :
  SharepointSearch.getCIKFromCompanyOrTicker None (Some "msft") (Some table) =
    (getCIKFromCompanyOrTicker None (Some "msft") (Some table) initialWorld).1.
Proof. apply resolvers_agree_on_ticker; reflexivity. Defined.

End ResolverExtras.

(** ** The CIK string *)
Section CikString.
Import JS SecFinance ExtraSpec Fixtures.

Lemma string_of_uint_length d :
  String.length (NilEmpty.string_of_uint d) = Decimal.nb_digits d.
Proof. induction d; simpl; congruence. Qed.

Lemma repeatChar_length n a : String.length (repeatChar n a) = n.
Proof. induction n; simpl; congruence. Qed.

Lemma append_length (s t : string) :
  String.length (s +:+ t) = String.length s + String.length t.
Proof. induction s as [|a s IH]; simpl; [reflexivity | now rewrite IH]. Qed.

Lemma padStart_length n a s :
  String.length (padStart n a s) = Nat.max n (String.length s).
Proof. unfold padStart. rewrite append_length, repeatChar_length. lia. Qed.

Lemma uint_of_zeros k s :
  NilEmpty.uint_of_string (repeatChar k "0"%char +:+ s) =
  Nat.iter k Decimal.D0 <$> NilEmpty.uint_of_string s.
Proof.
  induction k as [|k IH].
  - change (repeatChar 0 "0"%char +:+ s) with s.
    destruct (NilEmpty.uint_of_string s); reflexivity.
  - change (repeatChar (S k) "0"%char +:+ s)
      with (String "0"%char (repeatChar k "0"%char +:+ s)).
    cbn [NilEmpty.uint_of_string]. rewrite IH.
    destruct (NilEmpty.uint_of_string s); reflexivity.
Qed.

Lemma of_uint_zeros k d : N.of_uint (Nat.iter k Decimal.D0 d) = N.of_uint d.
Proof. induction k; simpl; auto. Qed.

Lemma usize_nb_digits d :
  DecimalPos.Unsigned.usize d = N.of_nat (Decimal.nb_digits d).
Proof.
  induction d; cbn [DecimalPos.Unsigned.usize Decimal.nb_digits];
    rewrite ?IHd, ?Nat2N.inj_succ; reflexivity.
Qed.

Lemma of_uint_acc_lower l acc :
  (10 ^ N.of_nat (Decimal.nb_digits l) <= N.pos (Pos.of_uint_acc l acc))%N.
Proof.
  rewrite DecimalPos.Unsigned.of_uint_acc_rev, usize_nb_digits.
  assert (10 ^ N.of_nat (Decimal.nb_digits l) <> 0)%N
    by (apply N.pow_nonzero; lia).
  nia.
Qed.

(** A number below 10^(k+1) is written with at most k+1 digits. *)
Lemma digits_bound (d : Decimal.uint) (k : nat) :
  Decimal.unorm d = d -> (N.of_uint d < 10 ^ N.of_nat (S k))%N ->
  Decimal.nb_digits d <= S k.
Proof.
  intros Hnorm Hlt.
  assert (Hpos : forall l acc, N.of_uint d = N.pos (Pos.of_uint_acc l acc) ->
                   Decimal.nb_digits l <= k).
  { intros l acc Heq. rewrite Heq in Hlt.
    pose proof (of_uint_acc_lower l acc) as Hlow.
    assert (Hp : (10 ^ N.of_nat (Decimal.nb_digits l) < 10 ^ N.of_nat (S k))%N)
      by lia.
    apply N.pow_lt_mono_r_iff in Hp; lia. }
  destruct d as [|l|l|l|l|l|l|l|l|l|l];
    try (cbn [Decimal.nb_digits]; apply le_n_S; eapply Hpos; reflexivity).
  - discriminate Hnorm.
  - unfold Decimal.unorm in Hnorm. cbn [Decimal.nzhead] in Hnorm.
    pose proof (DecimalFacts.nb_digits_nzhead l) as Hle.
    destruct (Decimal.nzhead l) eqn:Hz;
      try (rewrite Hnorm in Hle; cbn [Decimal.nb_digits] in Hle; lia).
    inversion Hnorm. cbn. lia.
Qed.

(** X7: for a CIK number that a double holds exactly (below 2^53), the CIK
    string reads back as the CIK number of its row, so rows with different
    such numbers never share a string; it has at least ten characters, and
    exactly ten for every number below 10^10. *)
Theorem cikString_reads_back row :
  (row_cik row < 2 ^ 53)%N ->
  cikNumber (cikString row) = Some (row_cik row) /\
  10 <= String.length (cikString row) /\
  ((row_cik row < 10 ^ 10)%N -> String.length (cikString row) = 10).
Proof.
  intros _. unfold cikString, cikNumber, numberToString.
  split; [| split].
  - unfold padStart. rewrite uint_of_zeros, NilEmpty.usu. simpl.
    now rewrite of_uint_zeros, DecimalN.Unsigned.of_to.
  - rewrite padStart_length. lia.
  - intros Hlt. rewrite padStart_length, string_of_uint_length.
    assert (Decimal.nb_digits (N.to_uint (row_cik row)) <= 10); [| lia].
    apply (digits_bound _ 9).
    + rewrite <- (DecimalN.Unsigned.of_to (row_cik row)) at 2.
      symmetry. apply DecimalN.Unsigned.to_of.
    + now rewrite DecimalN.Unsigned.of_to.
Qed.

Lemma cikString_reads_back_witness :
  cikNumber (cikString apple) = Some (row_cik apple) /\
  String.length (cikString apple) = 10.
Proof.
  destruct (cikString_reads_back apple) as (Hback & _ & Hten); [reflexivity |].
  split; [exact Hback | apply Hten; reflexivity].
Defined.

End CikString.

(** ** The identifier block of the endpoint *)
Section EndpointResolution.
Import JS JSMore SecFinance SecFinanceEndpoint ExtraSpec Fixtures ExtraFixtures.

Lemma lookupKey_name_first name ticker :
  truthy name = true -> lookupKey name ticker = lookupKey name None.
Proof.
  intros Hn. unfold lookupKey. now rewrite !(or_else_truthy name) by assumption.
Qed.

(** A call that does not end in the [catch] block leaves its answer in the
    cache under its key. *)
Lemma answer_stored name ticker resp w v w1 :
  getCIKFromCompanyOrTicker name ticker resp w = (v, w1) ->
  errorsLogged w1 = errorsLogged w ->
  companyCache w1 !! lookupKey name ticker = Some v.
Proof.
  intros Hcall Hok.
  destruct (companyCache w !! lookupKey name ticker) as [cached|] eqn:Hc.
  - rewrite (cache_hit _ _ _ _ _ Hc) in Hcall. inversion Hcall; subst. assumption.
  - pose proof (cache_miss name ticker resp w Hc) as Hm.
    rewrite Hcall in Hm. simpl in Hm.
    destruct Hm as [(data & _ & _ & ->) | (_ & _ & _ & _ & Herr)].
    + apply lookup_insert_eq.
    + rewrite Hok in Herr. lia.
Qed.

(** X8: in the [/api/ai-finance-sec] handler, when only a company name is
    given and the lookup by name completes without a match, the CIK stays
    null whatever ticker Yahoo supplies and whatever the table holds: the
    second lookup has the same key as the first and is answered by the null
    just stored, without another request. *)
Theorem ticker_from_yahoo_not_used companyName ticker (up : Upstream) w w1 :
  truthy companyName = true ->
  truthy ticker = false ->
  getCIKFromCompanyOrTicker companyName None (nameLookupTable up) w = (None, w1) ->
  errorsLogged w1 = errorsLogged w ->
  resolveIdentifiers companyName ticker up w =
    {| resolvedTicker := tickerFromYahoo up None;
       resolvedCik := None;
       worldAfter := w1 |}.
Proof.
  intros Hname Hticker Hfirst Hok.
  pose proof (answer_stored _ _ _ _ _ _ Hfirst Hok) as Hstored.
  unfold resolveIdentifiers, orNull. rewrite Hticker, Hname, Hfirst. simpl.
  rewrite orb_true_r. change (tickerFromMapping up None None) with (@None string).
  rewrite (cache_hit companyName (tickerFromYahoo up None) (tickerLookupTable up) w1 None);
    [reflexivity |].
  now rewrite lookupKey_name_first.
Qed.

Lemma ticker_from_yahoo_not_used_witness :
  resolvedTicker (resolveIdentifiers (Some "Redmond") None yahooKnows initialWorld)
    = Some "MSFT" /\
  resolvedCik (resolveIdentifiers (Some "Redmond") None yahooKnows initialWorld)
    = None.
Proof.
  rewrite (ticker_from_yahoo_not_used (Some "Redmond") None yahooKnows initialWorld
             (getCIKFromCompanyOrTicker (Some "Redmond") None (Some table) initialWorld).2);
    [split; reflexivity | reflexivity | reflexivity | reflexivity | reflexivity].
Defined.

End EndpointResolution.

(** ** Per-entity filings *)
Section FilingExtras.
Import JS JSMore SecFinance SecFinanceEndpoint ExtraSpec Fixtures ExtraFixtures.

Lemma upperChar_idemp a : upperChar (upperChar a) = upperChar a.
Proof. destruct a as [[] [] [] [] [] [] [] []]; reflexivity. Qed.

Lemma truthy_upper (x : option string) : truthy (toUpperCase <$> x) = truthy x.
Proof. destruct x as [[|a s]|]; reflexivity. Qed.

(** What every filing of a per-entity fetch is. *)
Lemma fetchFilings_elem (net : Network) c limit formFilter f :
  f ∈ fetchFilingsFromSECByCIK net c limit formFilter ->
  exists res recent slot,
    getSubmissions net c = Some res /\ sub_recent res = Some recent /\
    slot ∈ take (Nat.min (length recent) limit) recent /\
    formSkipped formFilter (slot_form slot) = false /\
    f = mkFiling c res (tickerOfCIK (getTickers net) c) slot.
Proof.
  unfold fetchFilingsFromSECByCIK.
  destruct (getSubmissions net c) as [res|]; simpl; [| intros H; inversion H].
  destruct (sub_recent res) as [recent|] eqn:Hrecent; simpl;
    [| intros H; inversion H].
  rewrite filingsLoop_window. intros Hf.
  apply list_elem_of_fmap in Hf as (slot & -> & Hslot).
  apply list_elem_of_In, List.filter_In in Hslot as [Hin Hpass].
  exists res, recent, slot. repeat split; auto.
  - now apply list_elem_of_In.
  - now apply negb_true_iff in Hpass.
Qed.

(** X9: every filing the per-entity fetch returns carries the CIK that was
    asked for and the ticker the reference table has for it, and its form
    contains the form filter, compared in upper case, when one is given. *)
Theorem fetched_filings_match (net : Network) c limit formFilter f :
  f ∈ fetchFilingsFromSECByCIK net c limit formFilter ->
  cik f = c /\
  ticker f = tickerOfCIK (getTickers net) c /\
  (forall wanted, formFilter = Some wanted -> wanted <> "" ->
     includes (toUpperCase (form f)) (toUpperCase wanted) = true).
Proof.
  intros Hf.
  destruct (fetchFilings_elem _ _ _ _ _ Hf)
    as (res & recent & slot & _ & _ & _ & Hpass & ->).
  simpl. repeat split.
  intros wanted -> Hne. unfold formSkipped in Hpass.
  destruct wanted; [congruence |]. simpl in Hpass.
  now apply negb_false_iff in Hpass.
Qed.

Lemma fetched_filings_match_witness :
  cik (mkFiling "0000320193" twoForms (Some "AAPL") tenKSlot) = "0000320193" /\
  ticker (mkFiling "0000320193" twoForms (Some "AAPL") tenKSlot) =
    tickerOfCIK (getTickers appleOnly) "0000320193" /\
  (forall wanted, Some "10-k" = Some wanted -> wanted <> "" ->
     includes (toUpperCase (form (mkFiling "0000320193" twoForms (Some "AAPL") tenKSlot)))
       (toUpperCase wanted) = true).
Proof.
  apply (fetched_filings_match appleOnly "0000320193" 10 (Some "10-k")).
  vm_compute. left.
Defined.

(** X10: without a form filter (null or empty) the fetch returns exactly the
    first min(total, limit) slots of the feed, in feed order. *)
Theorem unfiltered_fetch_is_prefix (net : Network) c limit formFilter res recent :
  truthy formFilter = false ->
  getSubmissions net c = Some res ->
  sub_recent res = Some recent ->
  fetchFilingsFromSECByCIK net c limit formFilter =
    mkFiling c res (tickerOfCIK (getTickers net) c) <$> take limit recent /\
  length (fetchFilingsFromSECByCIK net c limit formFilter) =
    Nat.min (length recent) limit.
Proof.
  intros Hff Hres Hrecent.
  assert (Heq : fetchFilingsFromSECByCIK net c limit formFilter =
                mkFiling c res (tickerOfCIK (getTickers net) c) <$> take limit recent).
  { unfold fetchFilingsFromSECByCIK. rewrite Hres, Hrecent. simpl.
    rewrite filingsLoop_window. f_equal.
    assert (Hall : forall l : list RecentSlot,
              List.filter (fun s => negb (formSkipped formFilter (slot_form s))) l = l).
    { induction l as [|s l IH]; simpl; [reflexivity |].
      unfold formSkipped at 1. rewrite Hff. simpl. now rewrite IH. }
    rewrite Hall.
    destruct (decide (length recent <= limit)) as [Hle|Hgt].
    - rewrite Nat.min_l by assumption. now rewrite !take_ge by lia.
    - now rewrite Nat.min_r by lia. }
  split; [assumption |].
  rewrite Heq, length_fmap, length_take. lia.
Qed.

Lemma unfiltered_fetch_is_prefix_witness :
  length (fetchFilingsFromSECByCIK appleOnly "0000320193" 1 None) = 1.
Proof.
  apply (unfiltered_fetch_is_prefix appleOnly "0000320193" 1 None twoForms recentTwo);
    reflexivity.
Defined.

(** X11: failing to fetch the reference table inside the per-entity fetch
    costs only the ticker: two networks that answer the same for the entity
    give the same filings up to the ticker field, and without the table the
    ticker is the empty string. *)
Theorem ticker_lookup_failure_harmless (net net' : Network) c limit formFilter :
  getSubmissions net c = getSubmissions net' c ->
  withoutTicker <$> fetchFilingsFromSECByCIK net c limit formFilter =
    withoutTicker <$> fetchFilingsFromSECByCIK net' c limit formFilter /\
  (getTickers net = None ->
   forall f, f ∈ fetchFilingsFromSECByCIK net c limit formFilter ->
     ticker f = Some "").
Proof.
  intros Hsame. split.
  - unfold fetchFilingsFromSECByCIK. rewrite Hsame.
    destruct (getSubmissions net' c) as [res|]; simpl; [| reflexivity].
    destruct (sub_recent res) as [recent|]; simpl; [| reflexivity].
    rewrite !filingsLoop_window, <- !list_fmap_compose. reflexivity.
  - intros Hnone f Hf.
    destruct (fetchFilings_elem _ _ _ _ _ Hf) as (res & recent & slot & _ & _ & _ & _ & ->).
    simpl. now rewrite Hnone.
Qed.

Lemma ticker_lookup_failure_harmless_witness :
  withoutTicker <$> fetchFilingsFromSECByCIK appleOnly "0000320193" 10 None =
  withoutTicker <$>
    fetchFilingsFromSECByCIK
      {| getSubmissions := getSubmissions appleOnly; getTickers := None |}
      "0000320193" 10 None.
Proof. apply ticker_lookup_failure_harmless. reflexivity. Defined.

End FilingExtras.

(** ** Stability of the sort *)
Section SortStability.
Import JS.
Context {A : Type} (comparefn : A -> A -> option Z) (P : A -> bool).

(** Elements picked out by [P] never have to change places. *)
Hypothesis P_tied :
  forall x y, P x = true -> P y = true -> (sortCompare comparefn x y <= 0)%Z.

Lemma insertSorted_stable x (l : list A) :
  List.filter P (insertSorted comparefn x l) = List.filter P (x :: l).
Proof.
  induction l as [|y l IH]; [reflexivity |].
  cbn [insertSorted].
  destruct (sortCompare comparefn x y <=? 0)%Z eqn:Hc; [reflexivity |].
  apply Z.leb_gt in Hc.
  change (List.filter P (y :: insertSorted comparefn x l))
    with (if P y then y :: List.filter P (insertSorted comparefn x l)
          else List.filter P (insertSorted comparefn x l)).
  rewrite IH. simpl.
  destruct (P x) eqn:Hx, (P y) eqn:Hy; try reflexivity.
  pose proof (P_tied x y Hx Hy). lia.
Qed.

Lemma sort_stable (l : list A) :
  List.filter P (sort comparefn l) = List.filter P l.
Proof.
  induction l as [|x l IH]; [reflexivity |].
  cbn [sort foldr]. fold (sort comparefn l).
  rewrite insertSorted_stable. simpl. now rewrite IH.
Qed.

End SortStability.

(** ** The aggregation as a whole *)
Section AggregationExtras.
Import JS JSMore SecFinance SecFinanceEndpoint Spec ExtraSpec Fixtures ExtraFixtures.

Lemma formSkipped_upper (ff1 ff2 : option string) form :
  toUpperCase <$> ff1 = toUpperCase <$> ff2 ->
  formSkipped ff1 form = formSkipped ff2 form.
Proof.
  intros H. unfold formSkipped.
  rewrite <- (truthy_upper ff1), <- (truthy_upper ff2), H.
  replace (toUpperCase (default "" ff1)) with (default "" (toUpperCase <$> ff1))
    by (destruct ff1; reflexivity).
  replace (toUpperCase (default "" ff2)) with (default "" (toUpperCase <$> ff2))
    by (destruct ff2; reflexivity).
  now rewrite H.
Qed.

Lemma fetchFilings_upper (net : Network) c limit (ff1 ff2 : option string) :
  toUpperCase <$> ff1 = toUpperCase <$> ff2 ->
  fetchFilingsFromSECByCIK net c limit ff1 = fetchFilingsFromSECByCIK net c limit ff2.
Proof.
  intros H. unfold fetchFilingsFromSECByCIK.
  destruct (getSubmissions net c) as [res|]; simpl; [| reflexivity].
  destruct (sub_recent res) as [recent|]; simpl; [| reflexivity].
  rewrite !filingsLoop_window.
  rewrite (List.filter_ext
             (fun s => negb (formSkipped ff1 (slot_form s)))
             (fun s => negb (formSkipped ff2 (slot_form s))));
    [reflexivity |].
  intros s. now rewrite (formSkipped_upper ff1 ff2).
Qed.

Lemma aggregate_ext {Entity : Type} dateValue (f g : Entity -> list Filing)
    (ciks : list Entity) limit :
  (forall e, f e = g e) ->
  aggregate dateValue f ciks limit = aggregate dateValue g ciks limit.
Proof.
  intros Hfg. unfold aggregate. rewrite !collect_firstSeen.
  rewrite (list_fmap_ext f g ciks); [reflexivity |]. intros ? e _. apply Hfg.
Qed.

(** X12: the form filter is case-insensitive: filters that agree in upper
    case select the same filings, per entity and over the whole universe. *)
Theorem form_filter_case_insensitive dateValue (net : Network) c limit
    (ff1 ff2 : option string) :
  toUpperCase <$> ff1 = toUpperCase <$> ff2 ->
  fetchFilingsFromSECByCIK net c limit ff1 = fetchFilingsFromSECByCIK net c limit ff2 /\
  fetchLatestFilingsByForm dateValue net ff1 limit =
    fetchLatestFilingsByForm dateValue net ff2 limit.
Proof.
  intros H. split; [now apply fetchFilings_upper |].
  unfold fetchLatestFilingsByForm.
  destruct (getTickers net) as [data|]; simpl; [| reflexivity].
  apply aggregate_ext. intros e. now apply fetchFilings_upper.
Qed.

Lemma form_filter_case_insensitive_witness :
  fetchFilingsFromSECByCIK appleOnly "0000320193" 10 (Some "10-k") =
  fetchFilingsFromSECByCIK appleOnly "0000320193" 10 (Some "10-K").
Proof.
  apply (form_filter_case_insensitive isoDate appleOnly "0000320193" 10
           (Some "10-k") (Some "10-K")).
  reflexivity.
Defined.

(** X13: the aggregation returns the first [limit] distinct filings in the
    order the per-entity results are read, re-ordered by the sort: the final
    slice removes nothing, so when fewer than [limit] distinct filings exist
    all of them are returned. *)
Theorem aggregate_is_first_seen {Entity : Type} dateValue
    (perEntityFetch : Entity -> list Filing) (ciks : list Entity) (limit : nat) :
  aggregate dateValue perEntityFetch ciks limit ≡ₚ
    take limit (firstSeen [] (concat (perEntityFetch <$> ciks))) /\
  (length (firstSeen [] (concat (perEntityFetch <$> ciks))) <= limit ->
   aggregate dateValue perEntityFetch ciks limit ≡ₚ
     firstSeen [] (concat (perEntityFetch <$> ciks))).
Proof.
  assert (Hperm : aggregate dateValue perEntityFetch ciks limit ≡ₚ
            take limit (firstSeen [] (concat (perEntityFetch <$> ciks)))).
  { unfold aggregate. rewrite collect_firstSeen.
    rewrite take_ge; [apply sort_Permutation |].
    rewrite sort_length, length_take. lia. }
  split; [assumption |].
  intros Hle. rewrite Hperm. now rewrite take_ge.
Qed.

Lemma aggregate_is_first_seen_witness :
  aggregate isoDate id feeds 10 ≡ₚ firstSeen [] (concat (id <$> feeds)).
Proof.
  apply (aggregate_is_first_seen isoDate id feeds 10). vm_compute. lia.
Defined.

Lemma aggregate_subset {Entity : Type} dateValue
    (perEntityFetch : Entity -> list Filing) (ciks : list Entity) limit f :
  f ∈ aggregate dateValue perEntityFetch ciks limit ->
  exists e, e ∈ ciks /\ f ∈ perEntityFetch e.
Proof.
  intros Hf. unfold aggregate in Hf. apply subseteq_take in Hf.
  rewrite sort_Permutation, collect_firstSeen in Hf.
  apply subseteq_take in Hf. apply firstSeen_subset in Hf as [Hf | Hf];
    [inversion Hf |].
  apply elem_of_concat in Hf as (fs & Hfs & Hf).
  apply list_elem_of_fmap in Hfs as (e & -> & He). eauto.
Qed.

Lemma fetchLatest_elem dateValue (net : Network) formFilter limit f :
  f ∈ fetchLatestFilingsByForm dateValue net formFilter limit ->
  exists data row,
    getTickers net = Some data /\ row ∈ data /\ cik f = cikString row /\
    f ∈ fetchFilingsFromSECByCIK net (cikString row) 10 formFilter /\
    passesFilter formFilter f = true.
Proof.
  unfold fetchLatestFilingsByForm.
  destruct (getTickers net) as [data|] eqn:Hdata; simpl; [| intros H; inversion H].
  intros Hf. apply aggregate_subset in Hf as (c & Hc & Hf).
  apply list_elem_of_fmap in Hc as (row & -> & Hrow).
  exists data, row. repeat split; auto.
  - destruct (fetchFilings_elem _ _ _ _ _ Hf) as (res & recent & slot & _ & _ & _ & _ & ->).
    reflexivity.
  - destruct (fetchFilings_elem _ _ _ _ _ Hf)
      as (res & recent & slot & _ & _ & _ & Hpass & ->).
    unfold passesFilter. simpl. now rewrite Hpass.
Qed.

(** X14: every filing [fetchLatestFilingsByForm] returns belongs to an
    entity of the reference table, was among the ten most recent filings
    the entity's feed offered, and passes the form filter. *)
Theorem latest_filings_match dateValue (net : Network) formFilter limit f :
  f ∈ fetchLatestFilingsByForm dateValue net formFilter limit ->
  exists data row,
    getTickers net = Some data /\ row ∈ data /\ cik f = cikString row /\
    f ∈ fetchFilingsFromSECByCIK net (cikString row) 10 formFilter /\
    passesFilter formFilter f = true.
Proof. apply fetchLatest_elem. Qed.

Lemma latest_filings_match_witness :
  exists data row,
    getTickers appleOnly = Some data /\ row ∈ data /\
    cik (mkFiling "0000320193" twoForms (Some "AAPL") tenKSlot) = cikString row /\
    mkFiling "0000320193" twoForms (Some "AAPL") tenKSlot
      ∈ fetchFilingsFromSECByCIK appleOnly (cikString row) 10 (Some "10-K") /\
    passesFilter (Some "10-K") (mkFiling "0000320193" twoForms (Some "AAPL") tenKSlot)
      = true.
Proof.
  apply (latest_filings_match isoDate appleOnly (Some "10-K") 5).
  vm_compute. left.
Defined.

(** X15: the filing dates being valid dates, the sort is stable on them:
    among the filings returned, those filed on one and the same date stand
    in the order in which they were collected. *)
Theorem same_date_keeps_discovery_order {Entity : Type} dateValue
    (perEntityFetch : Entity -> list Filing) (ciks : list Entity) (limit : nat)
    (day : Z) :
  (forall e f, e ∈ ciks -> f ∈ perEntityFetch e ->
     is_Some (dateValue (filingDate f))) ->
  List.filter (fun f => bool_decide (dateValue (filingDate f) = Some day))
    (aggregate dateValue perEntityFetch ciks limit) =
  List.filter (fun f => bool_decide (dateValue (filingDate f) = Some day))
    (collected (collect perEntityFetch limit ciks)).
Proof.
  intros _. unfold aggregate. rewrite take_ge.
  - apply sort_stable. intros x y Hx Hy.
    apply bool_decide_eq_true in Hx, Hy.
    unfold sortCompare, byDateDesc. rewrite Hx, Hy. simpl. lia.
  - rewrite sort_length, collect_firstSeen, length_take. lia.
Qed.

Lemma same_date_keeps_discovery_order_witness :
  List.filter (fun f => bool_decide (isoDate (filingDate f) = isoDate "2024-02-01"))
    (aggregate isoDate id sameDay 10) =
  [ filingOf "A" "0001" "2024-02-01"; filingOf "B" "0001" "2024-02-01" ].
Proof.
  assert (Hday : isoDate "2024-02-01" = Some (default 0%Z (isoDate "2024-02-01")))
    by reflexivity.
  rewrite Hday.
  rewrite (same_date_keeps_discovery_order isoDate id sameDay 10
             (default 0%Z (isoDate "2024-02-01"))).
  - reflexivity.
  - intros e f He Hf.
    repeat (apply elem_of_cons in He as [-> | He]);
      try (inversion He);
      repeat (apply elem_of_cons in Hf as [-> | Hf]);
      try (inversion Hf); eexists; reflexivity.
Defined.

End AggregationExtras.

(** ** The pacing of the windows *)
Section Pacing.
Import JS SecFinance Spec ExtraSpec Fixtures.
Context {Entity : Type} (perEntityFetch : Entity -> list Filing) (limit : nat).

Implicit Types (st : Collector) (tr extra : list Event).

Lemma quiet_prefix extra tr :
  Forall (fun e => quiet e = true) extra ->
  (Throttled (extra ++ tr) <-> Throttled tr) /\
  windows (extra ++ tr) = windows tr /\
  delays (extra ++ tr) = delays tr /\
  requested (extra ++ tr) = requested tr.
Proof.
  induction 1 as [|e extra He _ IH]; [simpl; tauto |].
  destruct e; try discriminate; simpl; assumption.
Qed.

Lemma consumeFilings_trace arr st :
  exists extra,
    trace (consumeFilings limit arr st) = extra ++ trace st /\
    Forall (fun e => quiet e = true) extra.
Proof.
  revert st. induction arr as [|f arr IH]; intros st; simpl.
  - exists []. auto.
  - destruct (alreadyCollected f (collected st)); [apply IH |].
    destruct (limit <=? _).
    + exists [Push (filingKey f)]. split; [reflexivity | repeat constructor].
    + destruct (IH (push f st)) as (extra & -> & Hq).
      exists (extra ++ [Push (filingKey f)]). simpl. rewrite <- app_assoc.
      split; [reflexivity |]. apply Forall_app. split; [assumption | repeat constructor].
Qed.

Lemma consumeResults_trace (results : list (list Filing)) st :
  exists extra,
    trace (consumeResults limit results st) = extra ++ trace st /\
    Forall (fun e => quiet e = true) extra.
Proof.
  revert st. induction results as [|arr results IH]; intros st.
  - exists []. auto.
  - destruct arr as [|f arr].
    + cbn [consumeResults].
      destruct (IH (note (ConsumeResult (length (@nil Filing))) st)) as (extra & -> & Hq).
      exists (extra ++ [ConsumeResult 0]). simpl. rewrite <- app_assoc.
      split; [reflexivity |]. apply Forall_app. split; [assumption | repeat constructor].
    + cbn [consumeResults].
      set (st1 := note (ConsumeResult (length (f :: arr))) st).
      destruct (consumeFilings_trace (f :: arr) st1) as (extra1 & Htr1 & Hq1).
      destruct (limit <=? _).
      * exists (extra1 ++ [ConsumeResult (length (f :: arr))]).
        rewrite Htr1. simpl. rewrite <- app_assoc.
        split; [reflexivity |]. apply Forall_app. split; [assumption | repeat constructor].
      * destruct (IH (consumeFilings limit (f :: arr) st1)) as (extra2 & -> & Hq2).
        exists (extra2 ++ extra1 ++ [ConsumeResult (length (f :: arr))]).
        rewrite Htr1. simpl. rewrite <- !app_assoc.
        split; [reflexivity |].
        repeat (apply Forall_app; split); auto; repeat constructor.
Qed.

(** What holds of the trace each time the window loop tests its condition. *)
Lemma batchLoop_paced fuel (ciks : list Entity) i st :
  Throttled (trace st) ->
  (trace st = [] \/ exists before, trace st = Delay :: before) ->
  delays (trace st) = windows (trace st) ->
  requested (trace st) <= Nat.min i (length ciks) ->
  let tr := trace (batchLoop perEntityFetch limit fuel ciks i st) in
  Throttled tr /\ delays tr = windows tr /\ requested tr <= length ciks.
Proof.
  revert i st. induction fuel as [|fuel IH]; intros i st Hth Hhead Hdw Hreq.
  - simpl. repeat split; auto. lia.
  - cbn [batchLoop].
    destruct (i <? length ciks) eqn:Hi; simpl; [| repeat split; auto; lia].
    destruct (length (collected st) <? limit); [| repeat split; auto; lia].
    apply Nat.ltb_lt in Hi.
    set (batch := take BATCH_SIZE (drop i ciks)).
    set (st1 := note (IssueWindow (length batch)) st).
    destruct (consumeResults_trace (perEntityFetch <$> batch) st1)
      as (extra & Htr & Hq).
    destruct (quiet_prefix extra (trace st1) Hq) as (Hth' & Hw' & Hd' & Hr').
    assert (Hsize : 1 <= length batch <= BATCH_SIZE /\
                    length batch = Nat.min BATCH_SIZE (length ciks - i)).
    { unfold batch. rewrite length_take, length_drop. unfold BATCH_SIZE. lia. }
    apply IH.
    + simpl. rewrite Htr. apply Hth'. simpl. tauto.
    + right. eexists. reflexivity.
    + simpl. rewrite Htr, Hw', Hd'. simpl. lia.
    + simpl. rewrite Htr, Hr'. simpl. unfold BATCH_SIZE in *. lia.
Qed.

End Pacing.

Section PacingExtras.
Import JS SecFinance Spec ExtraSpec Fixtures.

(** X16: the windows of an aggregation are paced: each holds between one
    and five entities, each but the first is issued right after a delay,
    there is one delay per window, and no more entities are requested than
    the universe has; with limit 0 nothing is requested at all. *)
Theorem windows_are_paced {Entity : Type} (perEntityFetch : Entity -> list Filing)
    (limit : nat) (ciks : list Entity) :
  Throttled (trace (collect perEntityFetch limit ciks)) /\
  delays (trace (collect perEntityFetch limit ciks)) =
    windows (trace (collect perEntityFetch limit ciks)) /\
  requested (trace (collect perEntityFetch limit ciks)) <= length ciks /\
  (limit = 0 -> trace (collect perEntityFetch limit ciks) = []).
Proof.
  pose proof (batchLoop_paced perEntityFetch limit (length ciks) ciks 0
                {| collected := []; trace := [] |}
                I (or_introl eq_refl) eq_refl (Nat.le_0_l _)) as (Hth & Hdw & Hreq).
  repeat split; auto.
  intros ->. unfold collect. destruct (length ciks); [reflexivity |].
  cbn [batchLoop]. simpl. now rewrite andb_false_r.
Qed.

Lemma windows_are_paced_witness :
  trace (collect oneEach 0 twelve) = [].
Proof. apply (windows_are_paced oneEach 0 twelve). reflexivity. Defined.

End PacingExtras.

(** ** The insight batches *)
Section InsightFacts.
Import JS JSMore SecFinance SecFinanceEndpoint ExtraSpec.

Lemma pairs_ind {A} (P : list A -> Prop) :
  P [] -> (forall a, P [a]) -> (forall a b l, P l -> P (a :: b :: l)) ->
  forall l, P l.
Proof.
  intros Hnil Hone Hstep l.
  assert (H : P l /\ forall a, P (a :: l)).
  { induction l as [|x l [IH1 IH2]]; split; auto. }
  tauto.
Qed.

Lemma pairs_unfold {A} (l : list A) :
  l <> [] -> pairs l = take 2 l :: pairs (drop 2 l).
Proof. destruct l as [|a [|b l]]; [congruence | reflexivity | reflexivity]. Qed.

Lemma pairs_concat {A} (l : list A) : concat (pairs l) = l.
Proof.
  induction l as [| a | a b l IH] using pairs_ind; simpl; [reflexivity .. |].
  now rewrite IH.
Qed.

Lemma pairs_sizes {A} (l : list A) :
  Forall (fun b => 1 <= length b <= 2) (pairs l).
Proof.
  induction l as [| a | a b l IH] using pairs_ind; simpl; repeat constructor;
    simpl; auto.
Qed.

Lemma pairs_length {A} (l : list A) : length (pairs l) = Nat.div2 (S (length l)).
Proof.
  induction l as [| a | a b l IH] using pairs_ind; simpl; [reflexivity .. |].
  rewrite IH. reflexivity.
Qed.

Context {Insight : Type}.
Variable ai : string -> string -> option string.
Variable parse : string -> option (list Insight).
Variable query : string.

Lemma askLoop_normal fuel (filings : list Filing) i (st st' : Asked) :
  length filings <= i + INSIGHT_BATCH_SIZE * fuel ->
  askLoop ai parse fuel filings query i st = Normal st' ->
  rev (asked st') = rev (asked st) ++ pairs (drop i filings) /\
  insights st' = insights st ++ concat (batchInsights ai parse query <$> pairs (drop i filings)).
Proof.
  unfold INSIGHT_BATCH_SIZE.
  revert i st. induction fuel as [|fuel IH]; intros i st Hfuel Hrun.
  - simpl in Hrun. inversion Hrun; subst.
    rewrite drop_ge by lia. simpl. now rewrite !app_nil_r.
  - cbn [askLoop] in Hrun. unfold INSIGHT_BATCH_SIZE in Hrun.
    destruct (i <? length filings) eqn:Hi.
    2: { inversion Hrun; subst. apply Nat.ltb_ge in Hi.
         rewrite drop_ge by lia. simpl. now rewrite !app_nil_r. }
    apply Nat.ltb_lt in Hi.
    assert (Hne : drop i filings <> []).
    { intros Hnil. apply (f_equal length) in Hnil.
      rewrite length_drop in Hnil. simpl in Hnil. lia. }
    destruct (ai (filingsText (take 2 (drop i filings))) query)
      as [content|] eqn:Hai; [| discriminate].
    apply IH in Hrun; [| lia]. destruct Hrun as [Hasked Hins]. simpl in Hasked, Hins.
    rewrite (pairs_unfold (drop i filings)) by assumption.
    rewrite drop_drop.
    split.
    + rewrite Hasked, <- app_assoc. reflexivity.
    + rewrite Hins, <- app_assoc. simpl. unfold batchInsights at 2.
      now rewrite Hai.
Qed.

Lemma askLoop_answered fuel (filings : list Filing) i (st : Asked) :
  Forall (fun b => is_Some (ai (filingsText b) query)) (pairs (drop i filings)) ->
  exists st', askLoop ai parse fuel filings query i st = Normal st'.
Proof.
  revert i st. induction fuel as [|fuel IH]; intros i st Hall; [eexists; reflexivity |].
  cbn [askLoop].
  destruct (i <? length filings) eqn:Hi; [| eexists; reflexivity].
  apply Nat.ltb_lt in Hi.
  assert (Hne : drop i filings <> []).
  { intros Hnil. apply (f_equal length) in Hnil.
    rewrite length_drop in Hnil. simpl in Hnil. lia. }
  rewrite (pairs_unfold _ Hne) in Hall. apply Forall_cons in Hall as [[content Hc] Hall].
  unfold INSIGHT_BATCH_SIZE. rewrite Hc.
  apply IH. now rewrite <- drop_drop.
Qed.

Lemma askLoop_throws fuel (filings : list Filing) i (st : Asked) :
  length filings <= i + INSIGHT_BATCH_SIZE * fuel ->
  Exists (fun b => ai (filingsText b) query = None) (pairs (drop i filings)) ->
  askLoop ai parse fuel filings query i st = Throw.
Proof.
  unfold INSIGHT_BATCH_SIZE.
  revert i st. induction fuel as [|fuel IH]; intros i st Hfuel Hex.
  - rewrite drop_ge in Hex by lia. inversion Hex.
  - cbn [askLoop].
    destruct (i <? length filings) eqn:Hi.
    2: { apply Nat.ltb_ge in Hi. rewrite drop_ge in Hex by lia. inversion Hex. }
    apply Nat.ltb_lt in Hi.
    assert (Hne : drop i filings <> []).
    { intros Hnil. apply (f_equal length) in Hnil.
      rewrite length_drop in Hnil. simpl in Hnil. lia. }
    rewrite (pairs_unfold _ Hne) in Hex. unfold INSIGHT_BATCH_SIZE.
    destruct (ai (filingsText (take 2 (drop i filings))) query) as [content|] eqn:Hai;
      [| reflexivity].
    apply IH; [lia |].
    apply Exists_cons in Hex as [Hex | Hex]; [congruence |].
    now rewrite <- drop_drop.
Qed.

End InsightFacts.

Section InsightExtras.
Import JS JSMore SecFinance SecFinanceEndpoint ExtraSpec Fixtures ExtraFixtures.

(** X17: when no request throws, [askAIAboutFilings] sends the filings to
    the model in consecutive batches of two (the last one single for an odd
    number), every filing exactly once and in order: ceil(n/2) requests for
    n filings. *)
Theorem insight_batches_cover_filings {Insight : Type}
    (ai : string -> string -> option string)
    (parse : string -> option (list Insight))
    (filings : list Filing) (query : string) (st : Asked) :
  askAll ai parse filings query = Normal st ->
  rev (asked st) = pairs filings /\
  concat (rev (asked st)) = filings /\
  Forall (fun batch => 1 <= length batch <= 2) (asked st) /\
  length (asked st) = Nat.div2 (S (length filings)).
Proof.
  intros Hrun. unfold askAll in Hrun.
  apply askLoop_normal in Hrun; [| unfold INSIGHT_BATCH_SIZE; lia].
  destruct Hrun as [Hasked _]. simpl in Hasked.
  split; [assumption |].
  split; [rewrite Hasked; apply pairs_concat |].
  split.
  - rewrite <- (rev_involutive (asked st)), Hasked.
    apply Forall_rev, pairs_sizes.
  - rewrite <- (length_rev (asked st)), Hasked. apply pairs_length.
Qed.

Lemma insight_batches_cover_filings_witness :
  exists st,
    askAll fencedReply parseSeven threeFilings "q" = Normal st /\
    length (asked st) = 2.
Proof.
  eexists. split; [reflexivity |].
  apply (insight_batches_cover_filings fencedReply parseSeven threeFilings "q").
  reflexivity.
Defined.

(** X18: the insights are those of the batches in order, a batch whose reply
    does not parse (after the fences are taken off) adding none and stopping
    nothing; a single request that throws makes the whole call throw. *)
Theorem insights_skip_unparsable_replies {Insight : Type}
    (ai : string -> string -> option string)
    (parse : string -> option (list Insight))
    (filings : list Filing) (query : string) :
  (Forall (fun batch => is_Some (ai (filingsText batch) query)) (pairs filings) ->
   askAIAboutFilings ai parse filings query =
     Normal (concat (batchInsights ai parse query <$> pairs filings))) /\
  (Exists (fun batch => ai (filingsText batch) query = None) (pairs filings) ->
   askAIAboutFilings ai parse filings query = Throw) /\
  (forall batch content,
     ai (filingsText batch) query = Some content ->
     parse (stripFences (trim content)) = None ->
     batchInsights ai parse query batch = []).
Proof.
  split; [| split].
  - intros Hall. unfold askAIAboutFilings.
    destruct filings as [|f filings]; [reflexivity |].
    simpl (length (f :: filings) =? 0). cbv iota.
    destruct (askLoop_answered ai parse query (length (f :: filings)) (f :: filings) 0
                {| insights := []; asked := [] |} Hall) as [st Hst].
    unfold askAll. rewrite Hst.
    apply askLoop_normal in Hst; [| unfold INSIGHT_BATCH_SIZE; lia].
    destruct Hst as [_ ->]. reflexivity.
  - intros Hex. unfold askAIAboutFilings.
    destruct filings as [|f filings]; [inversion Hex |].
    simpl (length (f :: filings) =? 0). cbv iota.
    unfold askAll. rewrite askLoop_throws; [reflexivity | | assumption].
    unfold INSIGHT_BATCH_SIZE. lia.
  - intros batch content Hai Hparse.
    unfold batchInsights, insightsOfReply. rewrite Hai. simpl. now rewrite Hparse.
Qed.

Lemma insights_skip_unparsable_replies_witness :
  askAIAboutFilings fencedReply parseSeven threeFilings "q" = Normal [7; 7].
Proof.
  destruct (insights_skip_unparsable_replies fencedReply parseSeven threeFilings "q")
    as [H _].
  rewrite H; [reflexivity |].
  repeat constructor; eexists; reflexivity.
Defined.

End InsightExtras.

(** ** Taking the code fences off a reply *)
Section Fences.
Import JS JSMore SecFinanceEndpoint ExtraSpec.

Lemma append_assoc (s t u : string) : (s +:+ t) +:+ u = s +:+ (t +:+ u).
Proof.
  induction s as [|a s IH]; [reflexivity |].
  change (String a ((s +:+ t) +:+ u) = String a (s +:+ (t +:+ u))).
  now rewrite IH.
Qed.

Lemma dropPrefix_append p s : dropPrefix p (p +:+ s) = Some s.
Proof.
  induction p as [|a p IH]; simpl; [now destruct s |].
  now rewrite Ascii.eqb_refl.
Qed.

Lemma dropPrefix_longer p q s :
  dropPrefix p s = None -> dropPrefix (p +:+ q) s = None.
Proof.
  revert s. induction p as [|a p IH]; intros s; simpl.
  - destruct s; discriminate.
  - destruct s as [|b s]; [reflexivity |].
    destruct (Ascii.eqb b a); [apply IH | reflexivity].
Qed.

Lemma trimStart_blank ws s :
  blank ws = true -> noLeadingSpace s = true -> trimStart (ws +:+ s) = s.
Proof.
  intros Hws Hs. induction ws as [|a ws IH]; simpl.
  - destruct s as [|b s]; [reflexivity |]. simpl in Hs |- *.
    apply negb_true_iff in Hs. now rewrite Hs.
  - simpl in Hws. apply andb_prop in Hws as [Ha Hws]. rewrite Ha. now apply IH.
Qed.

Lemma endsWith_append p suffix : endsWith (p +:+ suffix) suffix = true.
Proof.
  induction p as [|a p IH].
  - change ("" +:+ suffix) with suffix.
    destruct suffix; cbn [endsWith]; now rewrite String.eqb_refl.
  - change (String a p +:+ suffix) with (String a (p +:+ suffix)).
    cbn [endsWith]. rewrite IH. apply orb_true_r.
Qed.

Lemma sliceTo_append p suffix :
  sliceTo (String.length (p +:+ suffix) - String.length suffix) (p +:+ suffix) = p.
Proof.
  rewrite append_length. replace (String.length p + String.length suffix - String.length suffix)
    with (String.length p) by lia.
  induction p as [|a p IH]; simpl; [now destruct suffix | now rewrite IH].
Qed.

(** X19: a reply wrapped as [```json], white space, payload, [```] is
    unwrapped to its payload, provided the payload neither begins with white
    space nor with a fence of its own; a reply without fences at either end
    is left as it is. *)
Theorem fences_are_taken_off :
  (forall ws payload,
     blank ws = true -> noLeadingSpace payload = true ->
     dropPrefix "```" payload = None ->
     stripFences ("```json" +:+ ws +:+ payload +:+ "```") = payload) /\
  (forall text,
     dropPrefix "```" text = None -> endsWith text "```" = false ->
     stripFences text = text).
Proof.
  split.
  - intros ws payload Hws Hlead Hfence. unfold stripFences.
    unfold replaceLeading at 2. rewrite dropPrefix_append.
    rewrite trimStart_blank; [| assumption |].
    + unfold replaceTrailing. rewrite endsWith_append, sliceTo_append.
      unfold replaceLeading. now rewrite Hfence.
    + destruct payload as [|a payload]; [reflexivity | exact Hlead].
  - intros text Hlead Htrail. unfold stripFences.
    unfold replaceLeading at 2.
    pose proof (dropPrefix_longer "```" "json" text Hlead) as Hjson.
    change ("```" +:+ "json") with "```json" in Hjson. rewrite Hjson.
    unfold replaceTrailing. rewrite Htrail.
    unfold replaceLeading. now rewrite Hlead.
Qed.

Lemma fences_are_taken_off_witness :
  stripFences ("```json" +:+ newline +:+ "[7]" +:+ "```") = "[7]" /\
  stripFences "[7]" = "[7]".
Proof.
  destruct fences_are_taken_off as [Hwrapped Hbare].
  split; [apply Hwrapped | apply Hbare]; reflexivity.
Defined.

End Fences.

(** ** Keywords and the search string *)
Section KeywordExtras.
Import JS JSMore SharepointSearch ExtraSpec.

Lemma allChars_append p (s t : string) :
  allChars p (s +:+ t) = allChars p s && allChars p t.
Proof.
  induction s as [|a s IH]; [reflexivity |].
  change (String a s +:+ t) with (String a (s +:+ t)). simpl.
  now rewrite IH, andb_assoc.
Qed.

Lemma allChars_lower q :
  allChars (fun a => Ascii.eqb (lowerChar a) a) (toLowerCase q) = true.
Proof.
  induction q as [|a q IH]; [reflexivity |]. simpl.
  rewrite lowerChar_idemp, Ascii.eqb_refl. exact IH.
Qed.

Lemma toLowerCase_fixed s :
  allChars (fun a => Ascii.eqb (lowerChar a) a) s = true -> toLowerCase s = s.
Proof.
  induction s as [|a s IH]; [reflexivity |]. cbn [allChars]. intros H.
  apply andb_prop in H as [Ha Hs]. apply Ascii.eqb_eq in Ha.
  unfold toLowerCase in *. cbn [mapChars]. now rewrite Ha, IH.
Qed.

(** The words the regular expression yields from a lower-case text. *)
Lemma matchWords_words (s run : string) kw :
  allChars (fun a => Ascii.eqb (lowerChar a) a) s = true ->
  allChars (fun a => Ascii.eqb (lowerChar a) a) run = true ->
  allChars isWordChar run = true ->
  kw ∈ matchWords s run ->
  3 <= String.length kw /\ allChars isWordChar kw = true /\
  allChars (fun a => Ascii.eqb (lowerChar a) a) kw = true.
Proof.
  assert (Hemit : forall run,
            allChars (fun a => Ascii.eqb (lowerChar a) a) run = true ->
            allChars isWordChar run = true ->
            kw ∈ emitRun run ->
            3 <= String.length kw /\ allChars isWordChar kw = true /\
            allChars (fun a => Ascii.eqb (lowerChar a) a) kw = true).
  { intros r Hl Hw Hin. unfold emitRun in Hin.
    destruct (3 <=? String.length r) eqn:Hlen; [| inversion Hin].
    apply list_elem_of_singleton in Hin. subst. apply Nat.leb_le in Hlen. auto. }
  revert run. induction s as [|a s IH]; intros run Hs Hl Hw Hin; simpl in Hin.
  - now apply (Hemit run).
  - simpl in Hs. apply andb_prop in Hs as [Ha Hs].
    destruct (isWordChar a) eqn:Hword.
    + apply (IH (run +:+ String a EmptyString)); auto.
      * rewrite allChars_append, Hl. simpl. now rewrite Ha.
      * rewrite allChars_append, Hw. simpl. now rewrite Hword.
    + apply elem_of_app in Hin as [Hin | Hin]; [now apply (Hemit run) |].
      now apply (IH EmptyString).
Qed.

Lemma extractKeywordsArray_elem (query kw : string) :
  kw ∈ extractKeywordsArray query ->
  3 <= String.length kw /\
  allChars isWordChar kw = true /\
  toLowerCase kw = kw /\
  isStopWord kw = false.
Proof.
  unfold extractKeywordsArray. destruct (truthy (Some query)); [| intros H; inversion H].
  intros Hin. apply list_elem_of_In, List.filter_In in Hin as [Hin Hstop].
  apply list_elem_of_In in Hin.
  destruct (matchWords_words (toLowerCase query) "" kw (allChars_lower query)
              eq_refl eq_refl Hin) as (Hlen & Hword & Hlower).
  repeat split; auto.
  - now apply toLowerCase_fixed.
  - now apply negb_true_iff in Hstop.
Qed.

(** X20: every keyword extracted from a query is a run of at least three
    word characters, in lower case, and not a stop word. *)
Theorem keywords_are_well_formed (query kw : string) :
  kw ∈ extractKeywordsArray query ->
  3 <= String.length kw /\
  allChars isWordChar kw = true /\
  toLowerCase kw = kw /\
  isStopWord kw = false.
Proof. apply extractKeywordsArray_elem. Qed.

Lemma keywords_are_well_formed_witness :
  3 <= String.length "budget" /\
  allChars isWordChar "budget" = true /\
  toLowerCase "budget" = "budget" /\
  isStopWord "budget" = false.
Proof.
  apply (keywords_are_well_formed "What is the Q3 BUDGET of IT?" "budget").
  vm_compute. left.
Defined.

Lemma join_length_head sep x (rest : list string) :
  String.length x <= String.length (join sep (x :: rest)).
Proof.
  destruct rest as [|y rest]; [simpl; lia |].
  change (join sep (x :: y :: rest)) with (x +:+ sep +:+ join sep (y :: rest)).
  rewrite append_length. lia.
Qed.

(** X21: the search string sent to the index is the raw query when no
    keyword is extracted, and is never empty for a non-empty query. *)
Theorem search_string_never_empty (query : string) :
  (extractKeywordsArray query = [] ->
   keywordsToSearchString (extractKeywordsArray query) query = query) /\
  (query <> "" ->
   keywordsToSearchString (extractKeywordsArray query) query <> "").
Proof.
  split; [now intros -> |].
  intros Hq. unfold keywordsToSearchString.
  destruct (extractKeywordsArray query) as [|kw rest] eqn:Hk; [assumption |].
  assert (Hkw : kw ∈ extractKeywordsArray query) by (rewrite Hk; left).
  apply extractKeywordsArray_elem in Hkw.
  pose proof (join_length_head " OR " kw rest) as Hlen.
  intros Hempty. rewrite Hempty in Hlen. simpl in Hlen. lia.
Qed.

End KeywordExtras.

(** ** The ranking pass as a whole *)
Section RankExtras.
Import JS JSMore SharepointSearch SharepointQuery RankSpec ExtraSpec Fixtures ExtraFixtures.

Implicit Types (content : ContentSource) (keywords : list string)
  (files : list File) (c : Candidate).

Lemma scored_files content keywords budget files :
  file <$> (scoreContent content keywords budget <$> (scoreName keywords <$> files))
  = files.
Proof.
  induction files as [|f files IH]; [reflexivity |].
  rewrite !fmap_cons. f_equal. exact IH.
Qed.

Lemma rank_sorted content keywords files :
  StronglySorted (fun a b => score b <= score a)
    (rankCandidates content keywords files).
Proof.
  unfold rankCandidates.
  apply (sort_StronglySorted _ (fun _ => True)).
  - intros x y _ _. unfold sortCompare, byScoreDesc.
    destruct (score y =? score x) eqn:He; simpl.
    + apply Nat.eqb_eq in He. lia.
    + lia.
  - intros x y _ _. unfold sortCompare, byScoreDesc.
    destruct (score y =? score x) eqn:He; simpl; lia.
  - intros x y z _ _ _. lia.
  - apply Forall_forall. auto.
Qed.

(** X22: ranking neither drops nor adds a file; the candidates come out in
    descending order of score, and candidates with equal scores keep the
    order the search returned them in. *)
Theorem ranking_orders_by_score content keywords files :
  file <$> rankCandidates content keywords files ≡ₚ files /\
  StronglySorted (fun a b => score b <= score a)
    (rankCandidates content keywords files) /\
  (forall k,
     List.filter (fun c => score c =? k) (rankCandidates content keywords files) =
     List.filter (fun c => score c =? k)
       (scoreContent content keywords (previewBudget (scoreName keywords <$> files))
          <$> (scoreName keywords <$> files))).
Proof.
  split; [| split].
  - unfold rankCandidates. cbv zeta. rewrite sort_Permutation.
    now rewrite (scored_files content keywords _ files).
  - apply rank_sorted.
  - intros k. unfold rankCandidates. apply sort_stable.
    intros x y Hx Hy. apply Nat.eqb_eq in Hx, Hy.
    unfold sortCompare, byScoreDesc. rewrite Hx, Hy, Nat.eqb_refl. simpl. lia.
Qed.

Lemma anyNameMatch_scoreName keywords files :
  anyNameMatch (scoreName keywords <$> files) = false <->
  Forall (fun f => nameMatches (scoreName keywords f) = 0) files.
Proof.
  unfold anyNameMatch. induction files as [|f files IH]; simpl.
  - split; [constructor | reflexivity].
  - rewrite orb_false_iff, IH, Forall_cons, Nat.ltb_ge. 
    split; intros [H1 H2]; split; auto; lia.
Qed.

(** X23: the preview budget follows the names: when no file name holds a
    keyword every candidate's contentMatches is counted on a preview of up
    to 20000 characters, and as soon as one name holds a keyword every
    candidate's is counted on a preview of up to 8000. *)
Theorem preview_budget_follows_names content keywords files :
  (Forall (fun f => nameMatches (scoreName keywords f) = 0) files ->
   Forall (Scored content keywords 20000) (rankCandidates content keywords files)) /\
  (Exists (fun f => 0 < nameMatches (scoreName keywords f)) files ->
   Forall (Scored content keywords 8000) (rankCandidates content keywords files)).
Proof.
  pose proof (rankCandidates_Scored content keywords files) as Hall.
  split; intros Hnames.
  - apply anyNameMatch_scoreName in Hnames.
    unfold previewBudget in Hall. now rewrite Hnames in Hall.
  - destruct (anyNameMatch (scoreName keywords <$> files)) eqn:Hany.
    + unfold previewBudget in Hall. now rewrite Hany in Hall.
    + apply anyNameMatch_scoreName in Hany.
      apply Exists_exists in Hnames as (f & Hf & Hpos).
      rewrite Forall_forall in Hany. specialize (Hany f Hf). lia.
Qed.

Lemma preview_budget_follows_names_witness :
  Forall (Scored noContent ["budget"] 8000)
    (rankCandidates noContent ["budget"] [misc; budgetReport]).
Proof.
  apply (preview_budget_follows_names noContent ["budget"] [misc; budgetReport]).
  right. left. vm_compute. lia.
Defined.

Lemma sliceTo_length n s : String.length (sliceTo n s) <= n.
Proof.
  revert s. induction n as [|n IH]; intros [|a s]; simpl; try lia.
  specialize (IH s). lia.
Qed.

Lemma sliceTo_all n s : String.length s <= n -> sliceTo n s = s.
Proof.
  revert s. induction n as [|n IH]; intros [|a s]; simpl; intros H;
    try reflexivity; try lia.
  rewrite IH by lia. reflexivity.
Qed.

(** X24: a preview never exceeds its budget: with a budget of [m] > 0
    characters [getFileTextContent] returns the first [m] characters of the
    text it returns without one; a budget of zero cuts nothing; a failed
    request gives the empty text. *)
Theorem preview_within_budget content (driveId : option string) (itemId : string)
    (m : nat) :
  (0 < m ->
   getFileTextContent content driveId itemId (Some m) =
     sliceTo m (getFileTextContent content driveId itemId None) /\
   String.length (getFileTextContent content driveId itemId (Some m)) <= m) /\
  getFileTextContent content driveId itemId (Some 0) =
    getFileTextContent content driveId itemId None /\
  (content driveId itemId = None ->
   getFileTextContent content driveId itemId (Some m) = "").
Proof.
  unfold getFileTextContent.
  destruct (content driveId itemId) as [text|]; cbn -[sliceTo String.length Nat.ltb].
  - split; [| split; [reflexivity | discriminate]].
    intros Hm. destruct m as [|m]; [lia |].
    destruct (S m <? String.length text) eqn:Hlt; cbn -[sliceTo String.length Nat.ltb].
    + split; [reflexivity | apply sliceTo_length].
    + apply Nat.ltb_ge in Hlt. rewrite sliceTo_all by assumption. auto.
  - split; [| split; [reflexivity | reflexivity]].
    intros Hm. destruct m; cbn; split; auto; lia.
Qed.

Lemma preview_within_budget_witness :
  getFileTextContent (fun _ _ => Some "quarterly budget") None "01A" (Some 9) =
    "quarterly".
Proof.
  destruct (preview_within_budget (fun _ _ => Some "quarterly budget") None "01A" 9)
    as [H _].
  destruct H as [-> _]; [lia | reflexivity].
Defined.

Lemma filter_length_bound {A} (p : A -> bool) (l : list A) :
  length (List.filter p l) <= length l.
Proof. induction l as [|x l IH]; simpl; [lia | destruct (p x); simpl; lia]. Qed.

Lemma countKeywordPresence_bound text keywords :
  countKeywordPresence text keywords <= length keywords.
Proof.
  unfold countKeywordPresence.
  destruct (negb (truthy (Some text)) || (length keywords =? 0)); [lia |].
  rewrite countLoop_filter. simpl. apply filter_length_bound.
Qed.

(** X25: a count of keyword presence never exceeds the number of keywords
    and is zero for an empty text or an empty keyword list; so no ranked
    candidate scores more than four times the number of keywords. *)
Theorem scores_are_bounded content keywords files text :
  countKeywordPresence text keywords <= length keywords /\
  countKeywordPresence "" keywords = 0 /\
  countKeywordPresence text [] = 0 /\
  Forall (fun c => score c <= 4 * length keywords)
    (rankCandidates content keywords files).
Proof.
  split; [apply countKeywordPresence_bound |].
  split; [reflexivity |].
  split; [unfold countKeywordPresence; now rewrite orb_true_r |].
  pose proof (rankCandidates_Scored content keywords files) as Hall.
  eapply Forall_impl; [exact Hall |].
  intros c (Hn & Hc & Hs). rewrite Hs, Hn, Hc.
  pose proof (countKeywordPresence_bound (nameOf c) keywords).
  pose proof (countKeywordPresence_bound
                (previewOf content (previewBudget (scoreName keywords <$> files)) c)
                keywords).
  lia.
Qed.

End RankExtras.

(** ** The top files and their text *)
Section TopFileExtras.
Import JS JSMore SharepointSearch SharepointQuery RankSpec ExtraSpec Fixtures ExtraFixtures.

Implicit Types (content : ContentSource) (keywords : list string)
  (files : list File) (c : Candidate).

(** X26: the files read in full are the min(3, n) first of the ranking, and
    none of them scores less than a candidate left out. *)
Theorem top_files_lead content keywords files :
  length (topFiles (rankCandidates content keywords files)) =
    Nat.min 3 (length files) /\
  (forall c d,
     c ∈ topFiles (rankCandidates content keywords files) ->
     d ∈ drop (TOP_N (rankCandidates content keywords files))
           (rankCandidates content keywords files) ->
     score d <= score c).
Proof.
  set (ranked := rankCandidates content keywords files).
  assert (Hlen : length ranked = length files).
  { unfold ranked, rankCandidates. cbv zeta.
    now rewrite sort_length, !length_fmap. }
  split.
  - unfold topFiles, TOP_N. rewrite length_take, Hlen. lia.
  - intros c d Hc Hd.
    pose proof (rank_sorted content keywords files) as Hsorted.
    fold ranked in Hsorted.
    rewrite <- (take_drop (TOP_N ranked) ranked) in Hsorted.
    exact (StronglySorted_app_1_elem_of _ _ _ _ _ Hsorted Hc Hd).
Qed.

Lemma trimEnd_nonspace a s : isSpace a = false -> trimEnd (String a s) <> "".
Proof.
  intros Ha. cbn [trimEnd]. destruct (trimEnd s); [rewrite Ha |]; discriminate.
Qed.

Lemma join_head sep x (rest : list string) :
  exists tail, join sep (x :: rest) = x +:+ tail.
Proof.
  destruct rest as [|y rest].
  - exists "". simpl. induction x as [|a x IH]; [reflexivity |].
    change (String a x +:+ "") with (String a (x +:+ "")). now rewrite <- IH.
  - exists (sep +:+ join sep (y :: rest)). reflexivity.
Qed.

Lemma fileSection_head content c :
  exists r, fileSection content c = String (ascii_of_nat 10) (String "-"%char r).
Proof. unfold fileSection, newline. eexists. reflexivity. Qed.

(** X27: the text put together for the model is never blank once there is a
    candidate: every file contributes its separator and its name line even
    when nothing of it could be read, so the test of line 219 for an empty
    text never succeeds after the test of line 152 for no candidate. *)
Theorem combined_text_never_blank content (candidates : list Candidate) :
  candidates <> [] ->
  trim (combinedText content candidates) <> "".
Proof.
  intros Hne. unfold combinedText, topFiles, TOP_N.
  destruct candidates as [|c candidates]; [congruence |].
  simpl length. replace (Nat.min 3 (S (length candidates)))
    with (S (Nat.min 2 (length candidates))) by lia.
  cbn [take]. rewrite fmap_cons.
  destruct (join_head newline (fileSection content c)
              (fileSection content <$> take (Nat.min 2 (length candidates)) candidates))
    as [tail ->].
  destruct (fileSection_head content c) as [r ->].
  change (String (ascii_of_nat 10) (String "-"%char r) +:+ tail)
    with (String (ascii_of_nat 10) (String "-"%char (r +:+ tail))).
  unfold trim. cbn [trimStart].
  change (isSpace (ascii_of_nat 10)) with true.
  change (isSpace "-"%char) with false. cbv iota.
  now apply trimEnd_nonspace.
Qed.

Lemma combined_text_never_blank_witness :
  trim (combinedText noContent (rankCandidates noContent ["budget"] [budgetReport])) <> "".
Proof. apply combined_text_never_blank. discriminate. Defined.

End TopFileExtras.

(** ** The content of a file by type *)
Section ContentExtras.
Import JS JSMore SharepointSearch SharepointQuery ExtraSpec Fixtures ExtraFixtures.

(** X28: the type of a download is read from its content type and from three
    endings of the item id only.  With none of the four content-type markers
    and none of the endings .docx, .pdf, .txt the text is empty, also for an
    item id ending in .xlsx: the call of line 107 that was to test that
    ending raises, and the outer handler turns it into the empty text. *)
Theorem unknown_type_reads_empty download lib driveId itemId d maxChars :
  download driveId itemId = Some d ->
  knownType (toLowerCase (default "" (or_else (contentTypeHeader d) (Some "")))) = false ->
  knownEnding itemId = false ->
  getFileTextContent (contentVia download lib) driveId itemId maxChars = "".
Proof.
  unfold knownType, knownEnding. intros Hd Htype Hend.
  apply orb_false_elim in Htype as [Htype Hsheet].
  apply orb_false_elim in Htype as [Htype Htext].
  apply orb_false_elim in Htype as [Hword Hpdf].
  apply orb_false_elim in Hend as [Hend Htxt].
  apply orb_false_elim in Hend as [Hdocx Hpdf'].
  unfold getFileTextContent, contentVia, extractText. rewrite Hd. cbv zeta.
  rewrite Hword, Hdocx, Hpdf, Hpdf', Htext, Htxt, Hsheet. reflexivity.
Qed.

Lemma unknown_type_reads_empty_witness :
  getFileTextContent (contentVia octetStream eagerLibraries) (Some "b!x") "report.xlsx" None = "".
Proof.
  apply (unknown_type_reads_empty octetStream eagerLibraries (Some "b!x") "report.xlsx"
           {| contentTypeHeader := Some "application/octet-stream"; body := "PK" |} None);
    reflexivity.
Defined.

(** A workbook is read when its content type says so: with the
    spreadsheet marker and none of the three earlier markers or endings, the
    text is what the sheet library gives, cut to the budget, and empty when
    the library fails. *)
Lemma workbook_read_by_content_type download lib driveId itemId d maxChars :
  download driveId itemId = Some d ->
  let contentType := toLowerCase (default "" (or_else (contentTypeHeader d) (Some ""))) in
  includes contentType "spreadsheetml.sheet" = true ->
  includes contentType "wordprocessingml.document" = false ->
  includes contentType "pdf" = false ->
  includes contentType "text" = false ->
  knownEnding itemId = false ->
  getFileTextContent (contentVia download lib) driveId itemId maxChars =
  getFileTextContent (fun _ _ => Some (default "" (sheetsCsv lib (body d))))
    driveId itemId maxChars.
Proof.
  unfold knownEnding. cbv zeta. intros Hd Hsheet Hword Hpdf Htext Hend.
  apply orb_false_elim in Hend as [Hend Htxt].
  apply orb_false_elim in Hend as [Hdocx Hpdf'].
  unfold getFileTextContent, contentVia, extractText. rewrite Hd. cbv zeta.
  rewrite Hword, Hdocx, Hpdf, Hpdf', Htext, Htxt, Hsheet.
  destruct (sheetsCsv lib (body d)); reflexivity.
Qed.

Lemma workbook_read_by_content_type_witness :
  getFileTextContent (contentVia workbook eagerLibraries) (Some "b!x") "01C" (Some 2) =
  getFileTextContent (fun _ _ => Some (default "" (sheetsCsv eagerLibraries "PK")))
    (Some "b!x") "01C" (Some 2).
Proof.
  apply (workbook_read_by_content_type workbook eagerLibraries (Some "b!x") "01C"
           {| contentTypeHeader :=
                Some "application/vnd.openxmlformats-officedocument.spreadsheetml.sheet";
              body := "PK" |} (Some 2));
    reflexivity.
Defined.

End ContentExtras.

(** ** The filings the endpoint fetches *)
Section EndpointFilings.
Import JS JSMore SecFinance SecFinanceEndpoint Spec ExtraSpec Fixtures ExtraFixtures.

Lemma fetchFilings_length (net : Network) c limit formFilter :
  length (fetchFilingsFromSECByCIK net c limit formFilter) <= limit.
Proof.
  unfold fetchFilingsFromSECByCIK.
  destruct (getSubmissions net c) as [res|]; simpl; [| lia].
  destruct (sub_recent res) as [recent|]; simpl; [| lia].
  rewrite filingsLoop_window, length_fmap.
  etransitivity; [apply filter_length_le |]. rewrite length_take. lia.
Qed.

Lemma fetchLatest_length dateValue (net : Network) formFilter limit :
  length (fetchLatestFilingsByForm dateValue net formFilter limit) <= limit.
Proof.
  unfold fetchLatestFilingsByForm.
  destruct (getTickers net) as [data|]; simpl; [| lia].
  apply aggregate_facts.
Qed.

Lemma fetchFilings_pass (net : Network) c limit formFilter f :
  f ∈ fetchFilingsFromSECByCIK net c limit formFilter ->
  passesFilter formFilter f = true /\ cik f = c.
Proof.
  intros Hf.
  destruct (fetchFilings_elem _ _ _ _ _ Hf)
    as (res & recent & slot & _ & _ & _ & Hpass & ->).
  unfold passesFilter. simpl. now rewrite Hpass.
Qed.

Lemma passesFilter_falsy formFilter f :
  truthy formFilter = false -> passesFilter formFilter f = true.
Proof. intros H. unfold passesFilter, formSkipped. now rewrite H. Qed.

(** X29: the filings the endpoint hands to the summary are at most 50, at
    most 10 when no form is asked for, and every one of them passes the form
    filter of the request. *)
Theorem endpoint_filings_bounded dateValue (net : Network) source c formWanted :
  length (selectFilings dateValue net source c formWanted) <= 50 /\
  (truthy formWanted = false ->
   length (selectFilings dateValue net source c formWanted) <= 10) /\
  (forall f, f ∈ selectFilings dateValue net source c formWanted ->
     passesFilter formWanted f = true).
Proof.
  unfold selectFilings.
  pose proof (fetchFilings_length net (default "" c) 50 formWanted) as H50.
  pose proof (fetchFilings_length net (default "" c) 10 None) as H10.
  pose proof (fetchLatest_length dateValue net formWanted 10) as HL.
  destruct (wantsSec source); [| simpl; repeat split; try lia; intros f Hf; inversion Hf].
  destruct (truthy c).
  - destruct (truthy formWanted) eqn:Hform.
    + destruct (length (fetchFilingsFromSECByCIK net (default "" c) 50 formWanted) =? 0)
        eqn:Hnone.
      * repeat split; try lia; try discriminate.
        intros f Hf. now destruct (fetchLatest_elem _ _ _ _ _ Hf) as (? & ? & _ & _ & _ & _ & ?).
      * repeat split; try lia; try discriminate.
        intros f Hf. now apply fetchFilings_pass in Hf.
    + repeat split; try lia. intros f _. now apply passesFilter_falsy.
  - destruct (truthy formWanted) eqn:Hform.
    + repeat split; try lia; try discriminate.
      intros f Hf. now destruct (fetchLatest_elem _ _ _ _ _ Hf) as (? & ? & _ & _ & _ & _ & ?).
    + simpl. repeat split; try lia. intros f Hf. inversion Hf.
Qed.

(** X30: for a resolved entity the endpoint returns that entity's filings,
    with one exception: when a form is asked for and none of the entity's 50
    most recent filings has it, the filings come from the scan over all
    entities and may belong to others. *)
Theorem endpoint_prefers_entity dateValue (net : Network) source c formWanted f :
  truthy c = true ->
  f ∈ selectFilings dateValue net source c formWanted ->
  cik f = default "" c \/
  (truthy formWanted = true /\
   fetchFilingsFromSECByCIK net (default "" c) 50 formWanted = [] /\
   f ∈ fetchLatestFilingsByForm dateValue net formWanted 10).
Proof.
  unfold selectFilings. intros Hc.
  destruct (wantsSec source); [| intros Hf; inversion Hf].
  rewrite Hc. destruct (truthy formWanted).
  - destruct (fetchFilingsFromSECByCIK net (default "" c) 50 formWanted) as [|g gs] eqn:Hown.
    + simpl. intros Hf. right. auto.
    + simpl. rewrite <- Hown. intros Hf. left. now apply fetchFilings_pass in Hf.
  - intros Hf. left. now apply fetchFilings_pass in Hf.
Qed.

Lemma endpoint_prefers_entity_witness :
  cik (mkFiling "0000320193" twoForms (Some "AAPL") tenKSlot) =
    default "" (Some "0000320193") \/
  (truthy (Some "10-K") = true /\
   fetchFilingsFromSECByCIK appleOnly (default "" (Some "0000320193")) 50 (Some "10-K") = [] /\
   mkFiling "0000320193" twoForms (Some "AAPL") tenKSlot
     ∈ fetchLatestFilingsByForm isoDate appleOnly (Some "10-K") 10).
Proof.
  apply (endpoint_prefers_entity isoDate appleOnly "sec" (Some "0000320193") (Some "10-K"));
    [reflexivity | vm_compute; left].
Defined.

End EndpointFilings.
